(** * Retrieval pipeline of ba-agent-tool: a shallow embedding

    The development follows the Python sources:
    - [backend/embeddings/test.py]: the token batcher ([create_batches]),
      the Chroma-backed ingestion ([get_existing_sources],
      [create_or_update_vector_store], [process_all_documents]) and the
      loader [create_openai_embeddings];
    - [backend/pages/rag_cag.py]: [process_document], the FAISS-backed
      [build_vectordb], the retrievers and
      [clear_and_rebuild_vectorstores];
    - [main.py]: [RateLimiter.wait_if_needed],
      [call_gemini_api_with_retry], [chat_with_gemini],
      [get_llm_for_model], [get_audit_logs] and
      [upload_corporate_documents].

    Python integers are [Z], lists are [list], dictionaries are [gmap],
    sets are [gset]; a value decoded from JSON is a [Json.json].
    External services (tokenizer, document loaders, embedding model,
    FAISS, the file system, the HTTP server) are parameters of the
    sections that use them.  A call that can raise returns a [res]; the
    messages of the exceptions the interpreter raises are those of
    CPython 3.11. *)

From Stdlib Require Import ZArith Lia.
From Stdlib Require Import Ascii DecimalString SpecFloat.
From stdpp Require Import base option list strings gmap.

#[local] Open Scope Z_scope.

(* ===================================================================== *)
(** * Part I: the program                                                 *)
(* ===================================================================== *)

(** ** Python values shared by the modules *)

(** Exceptions, by class, with the message [str(e)] returns. *)
Inductive exn :=
| Exception (msg : string)
| ValueError (msg : string)
| KeyError (msg : string)
| IndexError (msg : string)
| TypeError (msg : string)
| AttributeError (msg : string)
| OSError (msg : string)
| TimeoutError.

(** [str(e)]. *)
Definition str (e : exn) : string :=
  match e with
  | Exception msg | ValueError msg | KeyError msg | IndexError msg
  | TypeError msg | AttributeError msg | OSError msg => msg
  | TimeoutError => ""
  end.

(** The outcome of a call that may raise. *)
Inductive res (A : Type) :=
| Ok (a : A)
| Raise (e : exn).
Arguments Ok {A} a.
Arguments Raise {A} e.

Definition res_bind {A B} (r : res A) (k : A -> res B) : res B :=
  match r with
  | Ok a => k a
  | Raise e => Raise e
  end.

(** [langchain]'s [Document]: the text and the metadata dictionary. *)
Record Document := mkDocument {
  page_content : string;
  metadata : gmap string string
}.

#[global] Instance Document_eq_dec : EqDecision Document.
Proof. solve_decision. Defined.

(** ** String operations of Python's [str] used by the sources *)
Module PyStr.

(** [c.lower()] on one character (ASCII letters). *)
Definition lower_ascii (c : ascii) : ascii :=
  let n := nat_of_ascii c in
  if (Nat.leb 65 n && Nat.leb n 90)%bool
  then ascii_of_nat (n + 32) else c.

(** [s.lower()]. *)
Fixpoint lower (s : string) : string :=
  match s with
  | EmptyString => EmptyString
  | String c s' => String (lower_ascii c) (lower s')
  end.

(** [s.startswith(p)]. *)
Definition startswith (p s : string) : bool := String.prefix p s.

(** [sub in s]. *)
Fixpoint contains (sub s : string) : bool :=
  if startswith sub s then true
  else match s with
       | EmptyString => false
       | String _ s' => contains sub s'
       end.

(** [s.endswith(suf)]. *)
Fixpoint endswith (suf s : string) : bool :=
  if String.eqb s suf then true
  else match s with
       | EmptyString => false
       | String _ s' => endswith suf s'
       end.

(** [str(n)] for an integer. *)
Definition of_Z (n : Z) : string :=
  NilZero.string_of_int (Z.to_int n).

(** [os.path.join(a, b)] on POSIX paths. *)
Definition path_join (a b : string) : string :=
  if startswith "/" b then b
  else if (String.eqb a "" || endswith "/" a)%bool then a +:+ b
  else a +:+ "/" +:+ b.

(** [s.split(sep)]. *)
Fixpoint split (sep : ascii) (s : string) : list string :=
  match s with
  | EmptyString => [EmptyString]
  | String c s' =>
      if Ascii.eqb c sep then EmptyString :: split sep s'
      else match split sep s' with
           | [] => [String c EmptyString]
           | word :: words => String c word :: words
           end
  end.

(** [pathlib]'s [Path(p).name]: the last component of the path, empty
    components and ["."] left out. *)
Definition basename (p : string) : string :=
  List.last
    (filter (fun part => part <> EmptyString /\ part <> ".")
            (split "/" p))
    EmptyString.

(** [name.rfind('.')]: the index of the last dot, if there is one. *)
Fixpoint rfind_dot (s : string) (i : nat) (last : option nat) : option nat :=
  match s with
  | EmptyString => last
  | String c s' =>
      rfind_dot s' (S i) (if Ascii.eqb c "."%char then Some i else last)
  end.

(** [s[i:]]. *)
Fixpoint drop (i : nat) (s : string) : string :=
  match i, s with
  | O, _ => s
  | S i', String _ s' => drop i' s'
  | S _, EmptyString => EmptyString
  end.

(** [pathlib]'s [Path(p).suffix]:
    [i = name.rfind('.')]; [name[i:]] when [0 < i < len(name) - 1],
    otherwise the empty string. *)
Definition suffix (p : string) : string :=
  let name := basename p in
  match rfind_dot name 0%nat None with
  | Some i =>
      if (Nat.ltb 0 i && Nat.ltb (S i) (String.length name))%bool
      then drop i name else EmptyString
  | None => EmptyString
  end.

End PyStr.

(** ** Python values decoded from JSON ([await response.json()]) *)
Module Json.

(** What [json] decoding yields: [None], [bool], [int], [float], [str],
    [list] and [dict] (with string keys, each key once, in the order of
    the document). *)
#[warnings="-register-all"] Inductive json :=
| JNull
| JBool (b : bool)
| JInt (n : Z)
| JFloat (f : spec_float)
| JStr (s : string)
| JList (items : list json)
| JDict (entries : list (string * json)).

(** [type(v).__name__]. *)
Definition type_name (v : json) : string :=
  match v with
  | JNull => "NoneType"
  | JBool _ => "bool"
  | JInt _ => "int"
  | JFloat _ => "float"
  | JStr _ => "str"
  | JList _ => "list"
  | JDict _ => "dict"
  end.

(** [bool(v)]: [None], [False], zero and the empty string, list and
    dictionary are falsy. *)
Definition truthy (v : json) : bool :=
  match v with
  | JNull => false
  | JBool b => b
  | JInt n => negb (n =? 0)
  | JFloat (S754_zero _) => false
  | JFloat _ => true
  | JStr "" => false
  | JStr _ => true
  | JList [] => false
  | JList _ => true
  | JDict [] => false
  | JDict _ => true
  end.

(** The value stored under [key]. *)
Fixpoint lookup_key (key : string) (entries : list (string * json))
    : option json :=
  match entries with
  | [] => None
  | (k, v) :: rest => if String.eqb k key then Some v else lookup_key key rest
  end.

(** [v.get(key)]: only a dictionary has the method. *)
Definition get (v : json) (key : string) : res json :=
  match v with
  | JDict entries => Ok (default JNull (lookup_key key entries))
  | _ =>
      Raise (AttributeError
               ("'" +:+ type_name v +:+ "' object has no attribute 'get'"))
  end.

(** [len(v)]. *)
Definition len (v : json) : res Z :=
  match v with
  | JStr s => Ok (Z.of_nat (String.length s))
  | JList items => Ok (Z.of_nat (length items))
  | JDict entries => Ok (Z.of_nat (length entries))
  | _ =>
      Raise (TypeError
               ("object of type '" +:+ type_name v +:+ "' has no len()"))
  end.

(** [v[0]]: the first item of a list, the first character of a string;
    no dictionary decoded from JSON has the key [0]. *)
Definition item0 (v : json) : res json :=
  match v with
  | JList (item :: _) => Ok item
  | JList [] => Raise (IndexError "list index out of range")
  | JStr (String c _) => Ok (JStr (String c ""))
  | JStr "" => Raise (IndexError "string index out of range")
  | JDict _ => Raise (KeyError "0")
  | _ =>
      Raise (TypeError ("'" +:+ type_name v +:+ "' object is not subscriptable"))
  end.

(** [v[key]] for a string [key] (one without quotes or escapes, as all
    the keys of the sources are: [str(KeyError(key))] is the key in
    quotes). *)
Definition getitem (v : json) (key : string) : res json :=
  match v with
  | JDict entries =>
      match lookup_key key entries with
      | Some item => Ok item
      | None => Raise (KeyError ("'" +:+ key +:+ "'"))
      end
  | JList _ =>
      Raise (TypeError "list indices must be integers or slices, not str")
  | JStr _ => Raise (TypeError "string indices must be integers, not 'str'")
  | _ =>
      Raise (TypeError ("'" +:+ type_name v +:+ "' object is not subscriptable"))
  end.

End Json.

(** ** The token batcher ([backend/embeddings/test.py]) *)
Module Batcher.
Section Batcher.

(** [tokenizer.encode] of tiktoken's [cl100k_base]. *)
Variable encode : string -> list nat.

(** [count_tokens(text)]: [len(tokenizer.encode(text))]. *)
Definition count_tokens (text : string) : Z :=
  Z.of_nat (length (encode text)).

(** The state of the [for] loop of [create_batches]. *)
Record loop_state := mkLoop {
  batches : list (list Document);
  current_batch : list Document;
  current_tokens : Z
}.

(** One iteration of the loop for [doc]. *)
Definition step (max_tokens_per_batch : Z) (st : loop_state)
    (doc : Document) : loop_state :=
  let doc_tokens := count_tokens (page_content doc) in
  if ((max_tokens_per_batch <? current_tokens st + doc_tokens)
      && negb (bool_decide (current_batch st = [])))%bool
  then mkLoop (batches st ++ [current_batch st]) [doc] doc_tokens
  else mkLoop (batches st) (current_batch st ++ [doc])
              (current_tokens st + doc_tokens).

Definition loop (max_tokens_per_batch : Z) (docs : list Document)
    (st : loop_state) : loop_state :=
  fold_left (step max_tokens_per_batch) docs st.

(** "Add the last batch if it has documents". *)
Definition finish (st : loop_state) : list (list Document) :=
  if bool_decide (current_batch st = []) then batches st
  else batches st ++ [current_batch st].

Definition create_batches (docs : list Document)
    (max_tokens_per_batch : Z) : list (list Document) :=
  finish (loop max_tokens_per_batch docs (mkLoop [] [] 0)).

(** The token sum the function prints for a batch. *)
Definition batch_tokens (b : list Document) : Z :=
  foldr (fun d acc => count_tokens (page_content d) + acc) 0 b.

(** A batch the function may return: not empty, and within the limit
    unless it is one chunk that is itself over the limit. *)
Definition batch_ok (max_tokens_per_batch : Z) (b : list Document) : Prop :=
  b <> [] /\
  (batch_tokens b <= max_tokens_per_batch \/
   exists d, b = [d] /\ max_tokens_per_batch < count_tokens (page_content d)).

(** What holds of the loop state between iterations. *)
Record loop_inv (max_tokens_per_batch : Z) (st : loop_state) : Prop := {
  inv_closed : Forall (batch_ok max_tokens_per_batch) (batches st);
  inv_sum : current_tokens st = batch_tokens (current_batch st);
  inv_open : current_batch st = [] \/
             batch_ok max_tokens_per_batch (current_batch st)
}.

(** Greedy filling: no batch has room for the first chunk of the batch
    that follows it. *)
Fixpoint tight (max_tokens_per_batch : Z) (bs : list (list Document))
    : Prop :=
  match bs with
  | [] => True
  | b1 :: rest =>
      match rest with
      | (d :: _) :: _ =>
          max_tokens_per_batch
          < batch_tokens b1 + count_tokens (page_content d)
      | _ => True
      end /\ tight max_tokens_per_batch rest
  end.

(** The token sums the function prints for the batches, added up (the
    total it prints is [batch_tokens] of the whole input). *)
Definition total_tokens (bs : list (list Document)) : Z :=
  foldr (fun b acc => batch_tokens b + acc) 0 bs.

End Batcher.

(** A tokenizer and chunks for the examples: one token per character. *)
Definition char_tokens (text : string) : list nat :=
  replicate (String.length text) 0%nat.
Fixpoint text_of_length (n : nat) : string :=
  match n with
  | O => EmptyString
  | S n' => String "x" (text_of_length n')
  end.
Definition chunk (n : nat) : Document := mkDocument (text_of_length n) ∅.

End Batcher.

(** ** The sliding-window rate limiter ([main.py], [RateLimiter]) *)
Module Limiter.

(** The attributes set by [__init__].  Timestamps are the values of
    [time.time()], in seconds. *)
Record RateLimiter := mkLimiter {
  max_requests : Z;
  window_seconds : Z;
  requests : list Z
}.

(** [RateLimiter()] with the default arguments. *)
Definition default : RateLimiter := mkLimiter 14 60 [].

(** [wait_if_needed], run when [time.time()] is [clock].  Returns the
    clock at which the call returns and the limiter it leaves;
    [asyncio.sleep(wait_time)] advances the clock by [wait_time].
    [self.requests[0]] raises [IndexError] on an empty list. *)
Definition wait_if_needed (clock : Z) (self : RateLimiter)
    : res (Z * RateLimiter) :=
  let now := clock in
  let pruned :=
    filter (fun req_time => now - req_time < window_seconds self)
           (requests self) in
  res_bind
    (if Z.of_nat (length pruned) >=? max_requests self then
       match pruned with
       | [] => Raise (IndexError "list index out of range")
       | oldest :: _ =>
           let wait_time := window_seconds self - (now - oldest) + 1 in
           if 0 <? wait_time then Ok (clock + wait_time) else Ok clock
       end
     else Ok clock)
    (fun clock' =>
       Ok (clock',
           mkLimiter (max_requests self) (window_seconds self)
                     (pruned ++ [now]))).

(** One task awaiting [wait_if_needed] once per outbound request, as
    [chat_with_gemini] does: before each call the task is idle for the
    given number of seconds ([0] is back-to-back).  Returns the clock at
    which each call returned, i.e. at which its request went out. *)
Fixpoint calls (gaps : list Z) (clock : Z) (self : RateLimiter)
    : res (list Z * RateLimiter) :=
  match gaps with
  | [] => Ok ([], self)
  | gap :: gaps' =>
      res_bind (wait_if_needed (clock + gap) self) (fun '(clock', self') =>
      res_bind (calls gaps' clock' self') (fun '(sent, self'') =>
      Ok (clock' :: sent, self'')))
  end.

(** The timestamps of [ts] that lie in the window of [w] seconds that
    starts at [t]. *)
Definition in_window (w t : Z) (ts : list Z) : list Z :=
  filter (fun x => t <= x < t + w) ts.

End Limiter.

(** ** The cloud gateway's retry loop ([main.py]) *)
Module Gateway.
Import Json.

(** What one attempt meets: a response with its status, its body decoded
    from JSON (read when the status is 200) and its raw text (read for
    the other statuses), or an exception raised by [aiohttp] while the
    request is posted or the body is read ([TimeoutError] is
    [asyncio.TimeoutError]). *)
Inductive attempt_result :=
| Response (status : Z) (data : json) (error_text : string)
| Raised (e : exn).

(** The [status == 200] branch:
    [data["candidates"][0]["content"]["parts"][0]["text"]] behind its two
    guards, or the empty-response exception; the exceptions Python raises
    on a body of another shape leave the branch as they are. *)
Definition extract (data : json) : res json :=
  res_bind (get data "candidates") (fun found =>
  res_bind
    (if truthy found
     then res_bind (getitem data "candidates") (fun candidates =>
          res_bind (len candidates) (fun n => Ok (0 <? n)))
     else Ok false) (fun has_candidates =>
  if has_candidates then
    res_bind (getitem data "candidates") (fun candidates =>
    res_bind (item0 candidates) (fun candidate =>
    res_bind (get candidate "content") (fun found_content =>
    res_bind
      (if truthy found_content
       then res_bind (getitem candidate "content") (fun content =>
            res_bind (get content "parts") (fun found_parts =>
            Ok (truthy found_parts)))
       else Ok false) (fun has_parts =>
    if has_parts then
      res_bind (getitem candidate "content") (fun content =>
      res_bind (getitem content "parts") (fun parts =>
      res_bind (item0 parts) (fun part =>
      getitem part "text")))
    else Raise (Exception "Empty response from Gemini API")))))
  else Raise (Exception "Empty response from Gemini API"))).

(** How one iteration of the [for] loop ends. *)
Inductive action :=
| Return (t : json)
| Continue (wait_time : Z)   (* [await asyncio.sleep(wait_time); continue] *)
| Reraise (e : exn).

(** The [try] block of one iteration. *)
Definition try_block (max_retries attempt : Z) (r : attempt_result)
    : res action :=
  match r with
  | Raised e => Raise e
  | Response status data error_text =>
      if status =? 200 then
        res_bind (extract data) (fun t => Ok (Return t))
      else if status =? 429 then
        if attempt <? max_retries - 1
        then Ok (Continue (2 ^ attempt * 2))
        else Raise (Exception "Rate limit exceeded - please try again later")
      else if status =? 403 then
        Raise (Exception "Invalid API key or insufficient permissions")
      else
        Raise (Exception
                 ("API error " +:+ PyStr.of_Z status +:+ ": " +:+ error_text))
  end.

(** One iteration: the [try] block and its two [except] clauses. *)
Definition iteration (max_retries attempt : Z) (r : attempt_result)
    : action :=
  match try_block max_retries attempt r with
  | Ok a => a
  | Raise TimeoutError =>
      if attempt <? max_retries - 1
      then Continue (2 ^ attempt * 1)
      else Reraise (Exception "Request timeout - please try again")
  | Raise e =>
      if ((attempt <? max_retries - 1)
          && PyStr.contains "rate limit" (PyStr.lower (str e)))%bool
      then Continue (2 ^ attempt * 2)
      else Reraise e
  end.

(** What the caller and the outside observe of one call: the value
    returned (whatever the body holds under ["text"]; [JNull], Python's
    [None], also when the loop ends without returning) or the exception
    raised, the number of requests posted and the sleeps, in order. *)
Record call_trace := mkTrace {
  result : res json;
  attempts : nat;
  sleeps : list Z
}.

(** [for attempt in range(max_retries)], from iteration [attempt] with
    [remaining] iterations to go; [server n] is what the [n]-th request
    of the call meets. *)
Fixpoint attempts_loop (server : nat -> attempt_result) (max_retries : Z)
    (remaining attempt : nat) (slept : list Z) : call_trace :=
  match remaining with
  | O => mkTrace (Ok JNull) attempt slept
  | S remaining' =>
      match iteration max_retries (Z.of_nat attempt) (server attempt) with
      | Return t => mkTrace (Ok t) (S attempt) slept
      | Continue wait_time =>
          attempts_loop server max_retries remaining' (S attempt)
                        (slept ++ [wait_time])
      | Reraise e => mkTrace (Raise e) (S attempt) slept
      end
  end.

Definition call_gemini_api_with_retry (server : nat -> attempt_result)
    (max_retries : Z) : call_trace :=
  attempts_loop server max_retries (Z.to_nat max_retries) 0 [].

(** The bodies of a 200 response by what they carry, for a JSON object
    [data]: [field key v] is what an object holds under [key] ([JNull]
    when the key is absent), and a field is missing when it is absent,
    [null] or empty. *)
Definition field (key : string) (v : json) : json :=
  match v with
  | JDict entries => default JNull (lookup_key key entries)
  | _ => JNull
  end.

Definition is_object (v : json) : bool :=
  match v with
  | JDict _ => true
  | _ => false
  end.

Definition missing (key : string) (v : json) : bool :=
  is_object v && negb (truthy (field key v)).

(** The first candidate of a body with a list of candidates. *)
Definition first_candidate (data : json) : option json :=
  match field "candidates" data with
  | JList (candidate :: _) => Some candidate
  | _ => None
  end.

(** A body without candidate. *)
Definition no_candidate (data : json) : bool := missing "candidates" data.

(** A body whose first candidate has no content. *)
Definition no_content (data : json) : bool :=
  match first_candidate data with
  | Some candidate => missing "content" candidate
  | None => false
  end.

(** A body whose first candidate has a content without parts. *)
Definition no_parts (data : json) : bool :=
  match first_candidate data with
  | Some candidate =>
      truthy (field "content" candidate)
      && missing "parts" (field "content" candidate)
  | None => false
  end.

(** A body whose first candidate has parts: what the first part holds
    under ["text"]. *)
Definition first_text (data : json) : option json :=
  match first_candidate data with
  | Some candidate =>
      match field "parts" (field "content" candidate) with
      | JList (JDict part :: _) => lookup_key "text" part
      | _ => None
      end
  | None => None
  end.

(** An exception that the generic handler of the loop raises again
    whatever attempts remain: no timeout, and no "rate limit" in its
    message. *)
Definition quiet (e : exn) : Prop :=
  e <> TimeoutError /\
  PyStr.contains "rate limit" (PyStr.lower (str e)) = false.

(** Bodies and servers used in the examples. *)
Definition body_with (t : json) : json :=
  JDict [("candidates",
          JList [JDict [("content",
                         JDict [("parts", JList [JDict [("text", t)]]);
                                ("role", JStr "model")]);
                        ("finishReason", JStr "STOP")]])].
Definition body_with_text (t : string) : json := body_with (JStr t).
Definition body_without_candidates : json :=
  JDict [("promptFeedback", JDict [("blockReason", JStr "SAFETY")])].
Definition body_without_content : json :=
  JDict [("candidates", JList [JDict [("finishReason", JStr "SAFETY")]])].
Definition body_without_parts : json :=
  JDict [("candidates",
          JList [JDict [("content", JDict [("role", JStr "model")]);
                        ("finishReason", JStr "MAX_TOKENS")]])].

Definition server_429_429_ok (n : nat) : attempt_result :=
  match n with
  | 0%nat | 1%nat => Response 429 body_without_candidates "quota"
  | _ => Response 200 (body_with_text "Antwort") ""
  end.

Definition server_403 (n : nat) : attempt_result :=
  Response 403 body_without_candidates "forbidden".

Definition server_empty_then_ok (n : nat) : attempt_result :=
  match n with
  | 0%nat => Response 200 body_without_candidates ""
  | _ => Response 200 (body_with_text "Antwort") ""
  end.

Definition server_always_429 (n : nat) : attempt_result :=
  Response 429 body_without_candidates "quota".

Definition server_always_timeout (n : nat) : attempt_result :=
  Raised TimeoutError.

(** A server whose first answer is a 200 with [data]. *)
Definition server_200 (data : json) (n : nat) : attempt_result :=
  Response 200 data "".

End Gateway.

(** ** Document loading ([process_document], [create_openai_embeddings]) *)
Module Loader.
Section Loader.

(** [loader.load()] of each langchain loader on a path: the documents
    read, or the exception raised. *)
Variables PyPDFLoader CSVLoader UnstructuredExcelLoader TextLoader
          Docx2txtLoader : string -> res (list Document).

(** [CharacterTextSplitter(chunk_size=1500, chunk_overlap=300)
    .split_documents]. *)
Variable split_documents : list Document -> list Document.

(** [process_document] of [rag_cag.py]: the documents returned and the
    messages shown with [st.error]. *)
Definition process_document (file_path : string)
    : list Document * list string :=
  let file_extension := PyStr.lower (PyStr.suffix file_path) in
  let loader :=
    if String.eqb file_extension ".pdf" then PyPDFLoader
    else if String.eqb file_extension ".csv" then CSVLoader
    else if String.eqb file_extension ".xlsx" then UnstructuredExcelLoader
    else TextLoader in
  match loader file_path with
  | Ok documents => (documents, [])
  | Raise e =>
      ([], ["Error loading " +:+ file_path +:+ ": " +:+ str e])
  end.

(** [create_openai_embeddings] of [test.py]: the chunks of the file (the
    embeddings object returned with them is the same for every file). *)
Definition create_openai_embeddings (doc_path : string)
    : res (list Document) :=
  res_bind
    (if PyStr.endswith ".docx" doc_path then Ok Docx2txtLoader
     else if PyStr.endswith ".pdf" doc_path then Ok PyPDFLoader
     else Raise (ValueError ("Unsupported file type: " +:+ doc_path)))
    (fun loader =>
  res_bind (loader doc_path) (fun documents =>
  Ok (split_documents documents))).

End Loader.

(** Loaders used in the examples: one document holding the path as its
    text, with the path as its ["source"]. *)
Definition echo_loader (path : string) : res (list Document) :=
  Ok [mkDocument path {[ "source" := path ]}].
Definition failing_loader (path : string) : res (list Document) :=
  Raise (Exception "cannot read").

End Loader.

(** ** The FAISS-backed store of [rag_cag.py] ([build_vectordb]) *)
Module Store.
Section Store.

Context {Vec : Type}.

(** A vector store in memory: the embedding records in insertion
    order. *)
Definition vectorstore : Type := list (Document * Vec).

(** What a directory of a vector store holds: the records, and the
    exception [FAISS.load_local] raises on it, if it cannot be read
    back. *)
Record persisted := mkPersisted {
  records : vectorstore;
  load_error : option exn
}.

Definition load_local (p : persisted) : res vectorstore :=
  match load_error p with
  | None => Ok (records p)
  | Some e => Raise e
  end.

(** [get_embeddings()]: the exception it raises when the embedding
    model cannot be loaded ([st.cache_resource] keeps the model once it
    is there). *)
Variable embeddings_error : option exn.

(** [FAISS.from_documents(chunks, embeddings)] and
    [vectorstore.add_documents(chunks)]: each embeds the chunks and
    builds or extends an index, and each can raise for reasons of its
    own (the embedding model fails, the list is empty, the vectors do
    not fit the index that was loaded). *)
Variable from_documents : list Document -> res vectorstore.
Variable add_documents : vectorstore -> list Document -> res vectorstore.

(** [vectorstore.save_local(path)] when it raises: the exception, and
    what it leaves of the directory, given what the directory held.  A
    save that returns leaves the store, readable. *)
Variable save_failure :
  vectorstore -> string -> option persisted -> option (exn * option persisted).

Definition save_local (vs : vectorstore) (path : string)
    (fs : gmap string persisted) : res unit * gmap string persisted :=
  match save_failure vs path (fs !! path) with
  | None => (Ok tt, <[path := mkPersisted vs None]> fs)
  | Some (e, Some remains) => (Raise e, <[path := remains]> fs)
  | Some (e, None) => (Raise e, delete path fs)
  end.

(** What a call leaves: the store returned or the exception raised, the
    directories on disk, and the warnings shown with [st.warning]. *)
Record outcome := mkOutcome {
  returned : res vectorstore;
  disk : gmap string persisted;
  warnings : list string
}.

Definition build_vectordb (fs : gmap string persisted)
    (chunks : list Document) (directory_name : string) : outcome :=
  match embeddings_error with
  | Some e => mkOutcome (Raise e) fs []
  | None =>
      let vectorstore_path := directory_name +:+ "_vectorstore" in
      let '(built, warned) :=
        match fs !! vectorstore_path with
        | Some p =>
            match res_bind (load_local p)
                           (fun vs => add_documents vs chunks) with
            | Ok vs => (Ok vs, [])
            | Raise e =>
                (from_documents chunks,
                 ["Error loading existing vector store: " +:+ str e
                  +:+ ". Creating new one."])
            end
        | None => (from_documents chunks, [])
        end in
      match built with
      | Ok vs =>
          let '(saved, fs') := save_local vs vectorstore_path fs in
          mkOutcome (res_bind saved (fun _ => Ok vs)) fs' warned
      | Raise e => mkOutcome (Raise e) fs warned
      end
  end.

(** [vectorstore.as_retriever(search_type="similarity",
    search_kwargs={"k": 4}).get_relevant_documents(query)]. *)
Variable similarity_search : vectorstore -> string -> res (list Document).

(** [get_retriever]: the store of the directory when it exists and can be
    loaded, otherwise [None] (a load error is shown and swallowed); the
    exception of [get_embeddings] is not caught. *)
Definition get_retriever (fs : gmap string persisted)
    (directory_name : string) : res (option vectorstore) :=
  match embeddings_error with
  | Some e => Raise e
  | None =>
      Ok match fs !! (directory_name +:+ "_vectorstore") with
         | Some p =>
             match load_local p with
             | Ok vs => Some vs
             | Raise _ => None
             end
         | None => None
         end
  end.

(** What [get_combined_retriever] returns: one of the two retrievers, or
    the object that combines them. *)
Inductive retriever :=
| Single (vs : vectorstore)
| CombinedRetriever (rag cag : vectorstore).

(** [get_combined_retriever]: an exception of either [get_retriever] is
    shown and [None] is returned. *)
Definition get_combined_retriever (fs : gmap string persisted)
    : option retriever :=
  match res_bind (get_retriever fs "rag_docs") (fun rag_retriever =>
        res_bind (get_retriever fs "cag_docs") (fun cag_retriever =>
        Ok (rag_retriever, cag_retriever))) with
  | Ok (Some rag, Some cag) => Some (CombinedRetriever rag cag)
  | Ok (Some rag, None) => Some (Single rag)
  | Ok (None, Some cag) => Some (Single cag)
  | Ok (None, None) => None
  | Raise _ => None
  end.

(** [retriever.get_relevant_documents(query)]; the combined retriever
    catches every exception of its two searches and returns [[]]. *)
Definition get_relevant_documents (r : retriever) (query : string)
    : res (list Document) :=
  match r with
  | Single vs => similarity_search vs query
  | CombinedRetriever rag cag =>
      match similarity_search rag query with
      | Ok rag_docs =>
          match similarity_search cag query with
          | Ok cag_docs => Ok (rag_docs ++ cag_docs)
          | Raise _ => Ok []
          end
      | Raise _ => Ok []
      end
  end.

End Store.

(** An embedding model and documents used in the examples. *)
Definition length_embedding (texts : list string) : res (list nat) :=
  Ok (map String.length texts).
Definition old_chunk : Document :=
  mkDocument "old" {[ "source" := "old.pdf" ]}.
Definition new_chunk : Document :=
  mkDocument "newer" {[ "source" := "new.pdf" ]}.
Definition unreadable_disk : gmap string (@persisted nat) :=
  {[ "rag_docs_vectorstore" :=
       mkPersisted [(old_chunk, 3%nat)] (Some (Exception "bad index")) ]}.
Definition readable_disk : gmap string (@persisted nat) :=
  {[ "rag_docs_vectorstore" := mkPersisted [(old_chunk, 3%nat)] None ]}.

(** A FAISS for the examples, on the vectors of [length_embedding]: a new
    index needs a first vector, and an index that was loaded takes
    vectors up to 4 only. *)
Definition example_from_documents (chunks : list Document)
    : res (@vectorstore nat) :=
  match chunks with
  | [] => Raise (IndexError "list index out of range")
  | _ => Ok (zip chunks (map (fun d => String.length (page_content d)) chunks))
  end.
Definition example_add_documents (vs : @vectorstore nat)
    (chunks : list Document) : res (@vectorstore nat) :=
  if forallb (fun d => Nat.leb (String.length (page_content d)) 4) chunks
  then Ok (vs ++ zip chunks
                     (map (fun d => String.length (page_content d)) chunks))
  else Raise (Exception "the vectors do not fit the index").
Definition always_saved (vs : @vectorstore nat) (path : string)
    (held : option (@persisted nat)) : option (exn * option (@persisted nat)) :=
  None.
Definition small_chunk : Document :=
  mkDocument "more" {[ "source" := "more.pdf" ]}.

(** A search that finds every document of the store, and a disk with both
    stores. *)
Definition search_all (vs : @vectorstore nat) (query : string)
    : res (list Document) :=
  Ok (vs.*1).
Definition both_stores : gmap string (@persisted nat) :=
  {[ "rag_docs_vectorstore" := mkPersisted [(old_chunk, 3%nat)] None;
     "cag_docs_vectorstore" := mkPersisted [(new_chunk, 5%nat)] None ]}.

End Store.

(** ** The Chroma-backed ingestion of [test.py] *)
Module Ingest.
Section Ingest.

Variable encode : string -> list nat.
Variables PyPDFLoader Docx2txtLoader : string -> res (list Document).
Variable split_documents : list Document -> list Document.
Context {Vec : Type}.
Variable embed_documents : list string -> res (list Vec).

(** [files_dir]: the directory the documents are read from. *)
Variable files_dir : string.

(** A persisted Chroma collection: its records in insertion order, and
    the exception met when it cannot be opened. *)
Record collection := mkCollection {
  records : list (Document * Vec);
  open_error : option exn
}.

(** What the functions read and write: the names in [files_dir]
    ([None] when the directory does not exist) and the collections under
    [db_dir], by store name. *)
Record world := mkWorld {
  listing : option (list string);
  stores : gmap string collection
}.

Definition get_supported_files (w : world) : list string :=
  match listing w with
  | Some names =>
      map (PyStr.path_join files_dir)
          (filter (fun file => PyStr.endswith ".docx" file
                               || PyStr.endswith ".pdf" file) names)
  | None => []
  end.

(** [Chroma(persist_directory=...)] followed by a read of the
    collection. *)
Definition Chroma (c : collection) : res (list (Document * Vec)) :=
  match open_error c with
  | None => Ok (records c)
  | Some e => Raise e
  end.

(** [get_existing_sources]: the set of [metadata["source"]] over the
    stored records; empty when the directory is missing or the
    collection cannot be read (the exception is caught and printed). *)
Definition get_existing_sources (w : world) (store_name : string)
    : gset string :=
  match stores w !! store_name with
  | Some c =>
      match Chroma c with
      | Ok all_docs =>
          list_to_set
            (omap (fun r : Document * Vec => metadata r.1 !! "source")
                  all_docs)
      | Raise _ => ∅
      end
  | None => ∅
  end.

(** [db.add_documents(batch)]: embeds the batch and appends a record per
    chunk. *)
Definition add_documents (db : list (Document * Vec))
    (batch : list Document) : res (list (Document * Vec)) :=
  res_bind (embed_documents (map page_content batch)) (fun vectors =>
  Ok (db ++ zip batch vectors)).

(** The remaining batches of a new store: the first exception
    propagates; the records added before it stay. *)
Fixpoint add_batches (db : list (Document * Vec))
    (batches : list (list Document))
    : res (list (Document * Vec)) * list (Document * Vec) :=
  match batches with
  | [] => (Ok db, db)
  | batch :: rest =>
      match add_documents db batch with
      | Ok db' => add_batches db' rest
      | Raise e => (Raise e, db)
      end
  end.

(** The batches added to an existing store: each in its own [try]; a
    batch that raises is skipped. *)
Definition add_batches_tolerant (db : list (Document * Vec))
    (batches : list (list Document)) : list (Document * Vec) :=
  fold_left
    (fun db batch =>
       match add_documents db batch with
       | Ok db' => db'
       | Raise _ => db
       end)
    batches db.

(** [Chroma.from_documents] creates the persisted collection before it
    embeds the chunks: when the embedding raises, the collection is left
    on disk, empty. *)
Definition create_or_update_vector_store (docs : list Document)
    (store_name : string) (st : gmap string collection)
    : res (list (Document * Vec)) * gmap string collection :=
  match st !! store_name with
  | None =>
      if 100 <? Z.of_nat (length docs) then
        match Batcher.create_batches encode docs 200000 with
        | [] => (Raise (IndexError "list index out of range"), st)
        | first :: rest =>
            match add_documents [] first with
            | Raise e => (Raise e, <[store_name := mkCollection [] None]> st)
            | Ok db =>
                let '(r, db') := add_batches db rest in
                (r, <[store_name := mkCollection db' None]> st)
            end
        end
      else
        match add_documents [] docs with
        | Raise e => (Raise e, <[store_name := mkCollection [] None]> st)
        | Ok db => (Ok db, <[store_name := mkCollection db None]> st)
        end
  | Some c =>
      match Chroma c with
      | Raise e => (Raise e, st)
      | Ok db =>
          let db' :=
            add_batches_tolerant db
              (Batcher.create_batches encode docs 200000) in
          (Ok db', <[store_name := mkCollection db' None]> st)
      end
  end.

(** "Process only new documents": a file whose loading raises is
    skipped. *)
Fixpoint load_all (paths : list string) : list Document :=
  match paths with
  | [] => []
  | doc_path :: rest =>
      match Loader.create_openai_embeddings
              PyPDFLoader Docx2txtLoader split_documents doc_path with
      | Ok docs => docs ++ load_all rest
      | Raise _ => load_all rest
      end
  end.

(** What one run leaves: the store returned ([None] for Python's
    [None]) or the exception raised, the world afterwards, and the paths
    that were given to [create_openai_embeddings]. *)
Record run := mkRun {
  returned : res (option (list (Document * Vec)));
  after : world;
  embedded : list string
}.

Definition process_all_documents (store_name : string) (w : world) : run :=
  let doc_files := get_supported_files w in
  if bool_decide (doc_files = []) then mkRun (Ok None) w []
  else
    let existing_sources := get_existing_sources w store_name in
    let new_files := filter (fun f => f ∉ existing_sources) doc_files in
    if bool_decide (new_files = []) then
      match stores w !! store_name with
      | Some c =>
          match Chroma c with
          | Ok db => mkRun (Ok (Some db)) w []
          | Raise e => mkRun (Raise e) w []
          end
      | None => mkRun (Ok None) w []
      end
    else
      let all_docs := load_all new_files in
      if bool_decide (all_docs = []) then mkRun (Ok None) w new_files
      else
        let '(r, st') :=
          create_or_update_vector_store all_docs store_name (stores w) in
        mkRun (res_bind r (fun db => Ok (Some db)))
              (mkWorld (listing w) st') new_files.


End Ingest.

(** A directory with two documents and an empty database, for the
    examples. *)
Definition two_files : @world nat :=
  mkWorld (Some ["a.pdf"; "b.docx"; "notes.txt"]) ∅.

End Ingest.

(** ** The upload endpoint of [main.py] ([upload_corporate_documents]) *)
Module Upload.
Section Upload.

(** [MAX_FILE_SIZE], read from the environment (10485760 by default). *)
Variable MAX_FILE_SIZE : Z.

(** The functions imported from [pages.rag_cag], applied to the
    temporary copy of an upload (its suffix and its content), and the
    state of the vector stores they work on. *)
Context {V : Type}.
Variable process_document : string -> string -> list Document.
Variable split_documents : list Document -> list Document.
Variable build_vectordb : list Document -> string -> V -> res unit * V.

(** An uploaded file: [file.filename] and [file.size] may be [None]. *)
Record UploadFile := mkUpload {
  filename : option string;
  size : option Z;
  content : string
}.

(** [HTTPException(status_code, detail)]; details by case instead of
    their formatted text. *)
Inductive error :=
| HTTPException (status_code : Z) (detail : detail)
| Other (e : exn)
with detail :=
| InvalidCategory
| ExceedsMaximumSize (name : string)
| ProcessingError (cause : error).

(** One entry of [processed_files]. *)
Record processed := mkProcessed {
  p_filename : string;
  p_size : Z;
  p_chunks : Z;
  p_type : string
}.

(** The server's state: the files written under the document
    directories, the vector stores, and the audit log (action and
    success flag). *)
Record server := mkServer {
  saved : list (string * string);
  vectordb : V;
  audit_logs : list (string * bool)
}.

(** [open(file_path, "wb")] followed by the write: the exception raised,
    if any, in the state the server is in (the file name comes from the
    client: its directory part may not exist, it may name a
    directory). *)
Variable open_error : string -> server -> option exn.

(** The locals of the [for] loop. *)
Record locals := mkLocals {
  processed_files : list processed;
  total_chunks : Z
}.

Definition allowed_extensions : list string :=
  [".txt"; ".pdf"; ".md"; ".csv"; ".xlsx"; ".docx"; ".json"; ".sql"].

(** [file.size and file.size > MAX_FILE_SIZE]. *)
Definition too_large (file : UploadFile) : bool :=
  match size file with
  | Some n => negb (n =? 0) && (MAX_FILE_SIZE <? n)
  | None => false
  end.

(** One iteration of the loop over [files]: the exception it raises, if
    any, and the state it leaves.  [Path(None)] raises [TypeError]; in
    the detail of the 413 a missing name is formatted as ["None"]. *)
Definition handle_file (category target_dir : string) (file : UploadFile)
    (st : server * locals) : option error * (server * locals) :=
  let '(srv, loc) := st in
  if too_large file then
    (Some (HTTPException 413
             (ExceedsMaximumSize (default "None" (filename file)))), st)
  else
    match filename file with
    | None =>
        (Some (Other (TypeError
           "expected str, bytes or os.PathLike object, not NoneType")), st)
    | Some name =>
        let file_extension := PyStr.lower (PyStr.suffix name) in
        if negb (bool_decide (file_extension ∈ allowed_extensions)) then
          (None, st)
        else
          let file_path := PyStr.path_join target_dir name in
          match open_error file_path srv with
          | Some e => (Some (Other e), st)
          | None =>
              let srv1 :=
                mkServer (saved srv ++ [(file_path, content file)])
                         (vectordb srv) (audit_logs srv) in
              let finish chunks_count srv2 :=
                (None,
                 (srv2,
                  mkLocals
                    (processed_files loc ++
                     [mkProcessed name
                                  (Z.of_nat (String.length (content file)))
                                  chunks_count file_extension])
                    (total_chunks loc + chunks_count))) in
              if bool_decide (category ∈ ["rag"; "cag"]) then
                let documents :=
                  process_document file_extension (content file) in
                if bool_decide (documents = []) then finish 0 srv1
                else
                  let chunks := split_documents documents in
                  match build_vectordb chunks target_dir (vectordb srv1) with
                  | (Ok _, v') =>
                      finish (Z.of_nat (length chunks))
                             (mkServer (saved srv1) v' (audit_logs srv1))
                  | (Raise e, v') =>
                      (Some (Other e),
                       (mkServer (saved srv1) v' (audit_logs srv1), loc))
                  end
              else finish 0 srv1
          end
    end.

(** The uploads the loop keeps, as name and content: those that have a
    name whose lower-cased suffix is allowed. *)
Definition accepted (files : list UploadFile) : list (string * string) :=
  omap (fun file =>
          match filename file with
          | Some name =>
              if bool_decide (PyStr.lower (PyStr.suffix name)
                              ∈ allowed_extensions)
              then Some (name, content file) else None
          | None => None
          end) files.

(** The [for] loop: it ends at the first exception. *)
Fixpoint handle_files (category target_dir : string)
    (files : list UploadFile) (st : server * locals)
    : option error * (server * locals) :=
  match files with
  | [] => (None, st)
  | file :: rest =>
      match handle_file category target_dir file st with
      | (None, st') => handle_files category target_dir rest st'
      | (Some e, st') => (Some e, st')
      end
  end.

Definition log_audit_event (action : string) (success : bool)
    (srv : server) : server :=
  mkServer (saved srv) (vectordb srv) (audit_logs srv ++ [(action, success)]).

(** The endpoint: the response ([processed_files] and [total_chunks]) or
    the exception the framework turns into the HTTP error. *)
Definition upload_corporate_documents (category : string)
    (files : list UploadFile) (srv : server)
    : (locals + error) * server :=
  if negb (bool_decide (category ∈ ["rag"; "cag"; "mapping"])) then
    (inr (HTTPException 400 InvalidCategory), srv)
  else
    let target_dir := category +:+ "_docs" in
    match handle_files category target_dir files (srv, mkLocals [] 0) with
    | (None, (srv', loc)) =>
        (inl loc, log_audit_event "document_upload_enhanced" true srv')
    | (Some e, (srv', _)) =>
        (inr (HTTPException 500 (ProcessingError e)),
         log_audit_event "document_upload_failed" false srv')
    end.

End Upload.

(** An instance for the examples: every upload is one document, kept as
    one chunk, the vector store counts the chunks per directory, and a
    file can be written when its name has no directory part. *)
Definition one_document (suffix content : string) : list Document :=
  [mkDocument content ∅].
Definition count_chunks (chunks : list Document) (directory_name : string)
    (v : list (string * nat)) : res unit * list (string * nat) :=
  (Ok tt, v ++ [(directory_name, length chunks)]).
Definition flat_directory (file_path : string)
    (srv : @server (list (string * nat))) : option exn :=
  match PyStr.split "/" file_path with
  | [_; _] => None
  | _ =>
      Some (OSError ("[Errno 2] No such file or directory: '"
                     +:+ file_path +:+ "'"))
  end.
Definition empty_server : @server (list (string * nat)) :=
  mkServer [] [] [].
Definition three_uploads : list UploadFile :=
  [mkUpload (Some "a.pdf") (Some 5) "hello";
   mkUpload (Some "big.pdf") (Some 10485761) "...";
   mkUpload (Some "c.pdf") (Some 3) "abc"].

End Upload.

(** ** Slices and joins of Python lists *)
Module PyList.

(** The index a slice bound [i] stands for in a list of length [len]:
    negative bounds count from the end, and every bound is clamped to
    [0 .. len]. *)
Definition clamp (i : Z) (len : nat) : nat :=
  if i <? 0 then Z.to_nat (Z.max (i + Z.of_nat len) 0)
  else Z.to_nat (Z.min i (Z.of_nat len)).

(** [l[:stop]]. *)
Definition slice_to {A} (stop : Z) (l : list A) : list A :=
  take (clamp stop (length l)) l.

(** [l[start:]]. *)
Definition slice_from {A} (start : Z) (l : list A) : list A :=
  drop (clamp start (length l)) l.

(** [sep.join(parts)]. *)
Fixpoint join (sep : string) (parts : list string) : string :=
  match parts with
  | [] => ""
  | [part] => part
  | part :: rest => part +:+ sep +:+ join sep rest
  end.

End PyList.

(** ** Rebuilding the FAISS stores ([clear_and_rebuild_vectorstores]) *)
Module Rebuild.
Section Rebuild.

Variables PyPDFLoader CSVLoader UnstructuredExcelLoader TextLoader
          : string -> res (list Document).

(** [RecursiveCharacterTextSplitter(chunk_size=1000, chunk_overlap=200)
    .split_documents] of [rag_cag.py]. *)
Variable split_documents : list Document -> list Document.

(** The embedding model and FAISS, as in [Store]. *)
Context {Vec : Type}.
Variable embeddings_error : option exn.
Variable from_documents : list Document -> res (@Store.vectorstore Vec).
Variable add_documents :
  @Store.vectorstore Vec -> list Document -> res (@Store.vectorstore Vec).
Variable save_failure :
  @Store.vectorstore Vec -> string -> option (@Store.persisted Vec) ->
  option (exn * option (@Store.persisted Vec)).

(** The document directories: for each one that exists, what
    [doc_dir.glob("*")] yields, as [str(file_path)] and
    [file_path.is_file()]. *)
Record world := mkWorld {
  doc_dirs : gmap string (list (string * bool));
  disk : gmap string (@Store.persisted Vec)
}.

(** The chunks of one entry of a directory. *)
Definition chunks_of_entry (entry : string * bool) : list Document :=
  if entry.2 then
    let documents :=
      (Loader.process_document PyPDFLoader CSVLoader
         UnstructuredExcelLoader TextLoader entry.1).1 in
    if bool_decide (documents = []) then [] else split_documents documents
  else [].

(** [all_chunks] of one directory. *)
Definition chunks_of_dir (entries : list (string * bool)) : list Document :=
  concat (map chunks_of_entry entries).

(** "Clear existing vector stores". *)
Definition clear (fs : gmap string (@Store.persisted Vec))
    : gmap string (@Store.persisted Vec) :=
  delete "cag_docs_vectorstore" (delete "rag_docs_vectorstore" fs).

(** "Rebuild from existing documents", for the directories still to do;
    an exception of [build_vectordb] ends the function. *)
Fixpoint rebuild (doc_types : list string)
    (dirs : gmap string (list (string * bool)))
    (fs : gmap string (@Store.persisted Vec))
    : res unit * gmap string (@Store.persisted Vec) :=
  match doc_types with
  | [] => (Ok tt, fs)
  | doc_type :: rest =>
      match dirs !! doc_type with
      | Some entries =>
          let all_chunks := chunks_of_dir entries in
          if bool_decide (all_chunks = []) then rebuild rest dirs fs
          else
            let out :=
              Store.build_vectordb embeddings_error from_documents
                                   add_documents save_failure
                                   fs all_chunks doc_type in
            match Store.returned out with
            | Ok _ => rebuild rest dirs (Store.disk out)
            | Raise e => (Raise e, Store.disk out)
            end
      | None => rebuild rest dirs fs
      end
  end.

Definition clear_and_rebuild_vectorstores (w : world)
    : res unit * gmap string (@Store.persisted Vec) :=
  rebuild ["rag_docs"; "cag_docs"] (doc_dirs w) (clear (disk w)).

(** What the store of a directory is rebuilt to: nothing when the
    directory is missing or yields no chunk, else what
    [FAISS.from_documents] builds from the chunks of its files. *)
Definition rebuilt_from (entries : option (list (string * bool)))
    (stored : option (@Store.persisted Vec)) : Prop :=
  let chunks := chunks_of_dir (default [] entries) in
  if bool_decide (chunks = []) then stored = None
  else exists vs,
      from_documents chunks = Ok vs /\
      stored = Some (Store.mkPersisted vs None).

(** What is left of the store of a directory whose rebuild raised:
    nothing when [get_embeddings] or [FAISS.from_documents] raised, and
    what the failed [save_local] left behind when that raised. *)
Definition left_by_failure (doc_type : string)
    (entries : option (list (string * bool)))
    (stored : option (@Store.persisted Vec)) : Prop :=
  let chunks := chunks_of_dir (default [] entries) in
  chunks <> [] /\
  match embeddings_error, from_documents chunks with
  | Some _, _ | None, Raise _ => stored = None
  | None, Ok vs =>
      exists e,
        save_failure vs (doc_type +:+ "_vectorstore") None = Some (e, stored)
  end.

End Rebuild.
End Rebuild.

(** ** The audit log ([log_audit_event], [get_audit_logs]) *)
Module Audit.
Section Audit.

(** The values of the [details] dictionaries. *)
Context {Val : Type}.

(** [AuditLog]; [timestamp] is [datetime.now().isoformat()] at the time
    of the event. *)
Record AuditLog := mkAuditLog {
  timestamp : string;
  action : string;
  user_id : option string;
  details : gmap string Val;
  success : bool
}.

(** [log_audit_event], at the time [now]. *)
Definition log_audit_event (now action : string) (details : gmap string Val)
    (success : bool) (user_id : option string)
    (audit_logs : list AuditLog) : list AuditLog :=
  audit_logs ++ [mkAuditLog now action user_id details success].

(** One entry of the mobile view. *)
Record mobile_log := mkMobileLog {
  m_id : string;
  m_action : string;
  m_details : gmap string Val;
  m_success : bool;
  m_timestamp : string
}.

Definition mobile_view (log : AuditLog) : mobile_log :=
  mkMobileLog (timestamp log) (action log)
    (filter (fun kv => kv.1 ∈ ["model"; "error"; "mobile_optimized"])
            (details log))
    (success log) (timestamp log).

(** The answer of [get_audit_logs]: the logs (full or in the mobile view)
    and [total_count]. *)
Record audit_response := mkAuditResponse {
  logs : list AuditLog + list mobile_log;
  total_count : nat
}.

Definition get_audit_logs (limit : Z) (mobile_optimized : bool)
    (audit_logs : list AuditLog) : audit_response :=
  let logs := PyList.slice_from (- limit) audit_logs in
  mkAuditResponse
    (if mobile_optimized then inr (map mobile_view logs) else inl logs)
    (length audit_logs).

End Audit.

(** Three events, for the examples. *)
Definition three_logs : list (@AuditLog string) :=
  [mkAuditLog "t1" "llm_initialization" None {[ "model" := "llama3" ]} true;
   mkAuditLog "t2" "gemini_chat_error" None
              {[ "model" := "gemini-pro"; "processing_time" := "0.5" ]}
              false;
   mkAuditLog "t3" "document_upload_enhanced" None ∅ true].

End Audit.

(** ** The model cache ([get_llm_for_model]) *)
Module LlmCache.
Section LlmCache.

(** [DEFAULT_MODEL], read from the environment. *)
Variable DEFAULT_MODEL : string.

(** [OllamaLLM(model=name, ...)]: the instance, or the exception the
    constructor raises. *)
Context {LLM : Type}.
Variable OllamaLLM : string -> res LLM.

(** The globals the function works on: [llm_cache] and the audit log
    (action and success flag of each event). *)
Record state := mkState {
  llm_cache : gmap string LLM;
  audit_logs : list (string * bool)
}.

(** What leaves the function when it does not return: the
    [HTTPException(500, "Cannot initialize LLM: ...")] with the message of
    its cause, or the exception of the fallback constructor. *)
Inductive failure :=
| CannotInitialize (cause : string)
| Propagated (e : exn).

Definition get_llm_for_model (model_name : string) (st : state)
    : (LLM + failure) * state :=
  match llm_cache st !! model_name with
  | Some llm => (inl llm, st)
  | None =>
      match OllamaLLM model_name with
      | Ok llm =>
          (inl llm,
           mkState (<[model_name := llm]> (llm_cache st))
                   (audit_logs st ++ [("llm_initialization", true)]))
      | Raise e =>
          let logged :=
            audit_logs st ++ [("llm_initialization_failed", false)] in
          if bool_decide (model_name <> DEFAULT_MODEL) then
            match OllamaLLM DEFAULT_MODEL with
            | Ok llm =>
                (inl llm,
                 mkState (<[model_name := llm]> (llm_cache st)) logged)
            | Raise e' => (inr (Propagated e'), mkState (llm_cache st) logged)
            end
          else (inr (CannotInitialize (str e)), mkState (llm_cache st) logged)
      end
  end.

End LlmCache.

(** An Ollama server that only has the model [llama3]; an instance is
    known by the name of its model. *)
Definition only_llama3 (name : string) : res string :=
  if String.eqb name "llama3" then Ok name
  else Raise (Exception "model not found").

End LlmCache.

(** ** The Gemini chat endpoint ([chat_with_gemini]) *)
Module Chat.
Section Chat.

(** [MAX_CONTEXT_DOCS], read from the environment. *)
Variable MAX_CONTEXT_DOCS : Z.

(** [get_combined_retriever()] and its [get_relevant_documents]. *)
Variable retriever : option (string -> res (list Document)).

(** The Gemini API: what the [n]-th request of a call for a model and a
    prompt meets. *)
Variable server : string -> string -> nat -> Gateway.attempt_result.

(** The [ValidationError] that [pydantic] raises when the field
    [response: str] of [GeminiChatResponse] is given a list or a
    dictionary. *)
Variable validation_error : Json.json -> exn.

(** The fields of [GeminiChatRequest] the function reads (the API key,
    temperature and token limit only travel to the API). *)
Record GeminiChatRequest := mkRequest {
  message : string;
  model : string;
  use_context : bool;
  context_sources : list string
}.

(** [GeminiChatResponse], without its clock readings ([processing_time],
    [timestamp]). *)
Record GeminiChatResponse := mkResponse {
  response : string;
  model_used : string;
  context_sources_used : list string;
  success : bool;
  error_message : option string
}.

(** The globals and the clock: [time.time()], [rate_limiter] and the
    audit log (action and success flag of each event). *)
Record state := mkState {
  clock : Z;
  rate_limiter : Limiter.RateLimiter;
  audit_logs : list (string * bool)
}.

(** One iteration of the loop over [docs[:MAX_CONTEXT_DOCS]]. *)
Definition add_context (acc : list string * list string) (doc : Document)
    : list string * list string :=
  let '(context_sources, context_parts) := acc in
  let source :=
    PyStr.basename (default "Unknown" (metadata doc !! "source")) in
  (if bool_decide (source ∈ context_sources) then context_sources
   else context_sources ++ [source],
   context_parts ++ ["[" +:+ source +:+ "]: " +:+ page_content doc]).

(** "Get context if requested": [context_sources] and [context_text], or
    the exception of the retriever. *)
Definition get_context (request : GeminiChatRequest)
    : res (list string * string) :=
  if use_context request
     && negb (bool_decide (context_sources request = [])) then
    match retriever with
    | Some get_relevant_documents =>
        res_bind (get_relevant_documents (message request)) (fun docs =>
        if bool_decide (docs = []) then Ok ([], "")
        else
          let '(sources, parts) :=
            fold_left add_context
                      (PyList.slice_to MAX_CONTEXT_DOCS docs) ([], []) in
          Ok (sources, PyList.join "

" parts))
    | None => Ok ([], "")
    end
  else Ok ([], "").

Definition system_prompt (context_text message : string) : string :=
  let context_section :=
    if bool_decide (context_text = "") then ""
    else "VERFÜGBARER KONTEXT:
" +:+ context_text +:+ "

" in
  "Sie sind ein erfahrener Business Analyst mit Expertise in Dokumentenanalyse.

" +:+ context_section +:+ "BENUTZERANFRAGE: " +:+ message +:+ "

Bitte geben Sie eine strukturierte, professionelle Antwort auf Deutsch.".

(** "Enhanced error handling": the message shown for [str(e)]. *)
Definition friendly_error (error_message : string) : string :=
  if PyStr.contains "429" error_message
     || PyStr.contains "rate limit" (PyStr.lower error_message)
  then "Rate limit exceeded. Please wait a moment and try again."
  else if PyStr.contains "403" error_message
          || PyStr.contains "forbidden" (PyStr.lower error_message)
  then "Invalid API key or insufficient permissions."
  else if PyStr.contains "quota" (PyStr.lower error_message)
  then "API quota exceeded. Please check your Gemini API usage."
  else error_message.

(** The [except] clause of the endpoint. *)
Definition failed (request : GeminiChatRequest) (e : exn) (st : state)
    : GeminiChatResponse * state :=
  (mkResponse "" (model request) [] false (Some (friendly_error (str e))),
   mkState (clock st) (rate_limiter st)
           (audit_logs st ++ [("gemini_chat_error", false)])).

Definition chat_with_gemini (request : GeminiChatRequest) (st : state)
    : GeminiChatResponse * state :=
  match Limiter.wait_if_needed (clock st) (rate_limiter st) with
  | Raise e =>
      (* [self.requests] was pruned before [self.requests[0]] raised *)
      let pruned :=
        filter (fun req_time =>
                  clock st - req_time
                  < Limiter.window_seconds (rate_limiter st))
               (Limiter.requests (rate_limiter st)) in
      failed request e
        (mkState (clock st)
           (Limiter.mkLimiter (Limiter.max_requests (rate_limiter st))
              (Limiter.window_seconds (rate_limiter st)) pruned)
           (audit_logs st))
  | Ok (clock1, limiter1) =>
      let st1 := mkState clock1 limiter1 (audit_logs st) in
      match get_context request with
      | Raise e => failed request e st1
      | Ok (sources, context_text) =>
          let call :=
            Gateway.call_gemini_api_with_retry
              (server (model request)
                      (system_prompt context_text (message request))) 3 in
          let st2 :=
            mkState (clock1 + foldr Z.add 0 (Gateway.sleeps call))
                    limiter1 (audit_logs st) in
          match Gateway.result call with
          | Ok response_text =>
              (* ["response_length": len(response_text)] *)
              match Json.len response_text with
              | Ok _ =>
                  let st3 :=
                    mkState (clock st2) (rate_limiter st2)
                      (audit_logs st2 ++ [("gemini_chat_success", true)]) in
                  (* [GeminiChatResponse(response=response_text, ...)]:
                     a value with a length that is no string is a list
                     or a dictionary *)
                  match response_text with
                  | Json.JStr text =>
                      (mkResponse text (model request) sources true None,
                       st3)
                  | _ => failed request (validation_error response_text) st3
                  end
              | Raise e => failed request e st2
              end
          | Raise e => failed request e st2
          end
      end
  end.

End Chat.

(** A request without context, a fresh default limiter and a validation
    error, for the examples. *)
Definition plain_request : GeminiChatRequest :=
  mkRequest "Hallo" "gemini-pro" false ["rag"; "cag"].
Definition fresh_state : state := mkState 100 Limiter.default [].
Definition not_a_string (v : Json.json) : exn :=
  ValueError "1 validation error for GeminiChatResponse".

End Chat.

(* ===================================================================== *)
(** * Part II: properties                                                 *)
(* ===================================================================== *)

Section BatcherProperties.
Import Batcher.
Variable encode : string -> list nat.


Lemma count_tokens_nonneg text : 0 <= count_tokens encode text.
Proof. unfold count_tokens. lia. Qed.

Lemma batch_tokens_nonneg b : 0 <= batch_tokens encode b.
Proof.
  induction b as [|d b IH]; simpl; [lia|].
  pose proof (count_tokens_nonneg (page_content d)). lia.
Qed.

Lemma batch_tokens_nil : batch_tokens encode [] = 0.
Proof. reflexivity. Qed.

Lemma batch_tokens_cons d b :
  batch_tokens encode (d :: b)
  = count_tokens encode (page_content d) + batch_tokens encode b.
Proof. reflexivity. Qed.

Lemma batch_tokens_app b1 b2 :
  batch_tokens encode (b1 ++ b2)
  = batch_tokens encode b1 + batch_tokens encode b2.
Proof. induction b1 as [|d b1 IH]; simpl; lia. Qed.

Ltac tok_norm :=
  rewrite ?batch_tokens_app, ?batch_tokens_cons, ?batch_tokens_nil.

Lemma loop_cons max d docs st :
  loop encode max (d :: docs) st = loop encode max docs (step encode max st d).
Proof. reflexivity. Qed.

Lemma loop_app max l1 l2 st :
  loop encode max (l1 ++ l2) st = loop encode max l2 (loop encode max l1 st).
Proof. unfold loop. apply fold_left_app. Qed.

(** The loop only ever appends to the batches it was started with. *)
Lemma loop_batches_prefix max docs B0 B c t :
  finish (loop encode max docs (mkLoop (B0 ++ B) c t))
  = B0 ++ finish (loop encode max docs (mkLoop B c t)).
Proof.
  revert B c t. induction docs as [|d docs IH]; intros B c t.
  - unfold finish; simpl. case_bool_decide; [done|]. by rewrite <- app_assoc.
  - rewrite !loop_cons. unfold step; simpl.
    destruct (_ && _)%bool; [|apply IH].
    rewrite <- app_assoc. apply IH.
Qed.

Lemma loop_batches_split max docs B c t :
  finish (loop encode max docs (mkLoop B c t))
  = B ++ finish (loop encode max docs (mkLoop [] c t)).
Proof.
  rewrite <- (loop_batches_prefix max docs B [] c t).
  by rewrite app_nil_r.
Qed.

(** Closed batches, then the open batch, then the chunks still to come:
    flattening gives back the sequence in order. *)
Lemma loop_concat max docs B c t :
  concat (finish (loop encode max docs (mkLoop B c t))) = concat B ++ c ++ docs.
Proof.
  revert B c t. induction docs as [|d docs IH]; intros B c t.
  - unfold finish; simpl. case_bool_decide as Hc.
    + subst c. by rewrite app_nil_r.
    + rewrite concat_app. simpl. by rewrite !app_nil_r.
  - rewrite loop_cons. unfold step; simpl.
    destruct (_ && _)%bool; rewrite IH.
    + rewrite concat_app. simpl. by rewrite app_nil_r, <- app_assoc.
    + by rewrite <- app_assoc.
Qed.

Lemma step_inv max st d :
  loop_inv encode max st -> loop_inv encode max (step encode max st d).
Proof.
  intros [Hcl Hsum Hop]. unfold step.
  pose proof (count_tokens_nonneg (page_content d)) as Hd.
  destruct (max <? current_tokens st + count_tokens encode (page_content d))
    eqn:Hlt; simpl.
  - apply Z.ltb_lt in Hlt. case_bool_decide as Hc; simpl.
    + (* the open batch is empty: the chunk starts it, whatever its size *)
      rewrite Hc in *. rewrite batch_tokens_nil in Hsum. rewrite Hsum in *.
      split; simpl; [done|tok_norm; lia|].
      right. split; [done|]. right. exists d. split; [done|lia].
    + (* the open batch is closed and the chunk starts the next one *)
      destruct Hop as [?|Hop]; [done|].
      split; simpl; [|tok_norm; lia|].
      * apply Forall_app. split; [done|]. by constructor.
      * right. split; [done|].
        destruct (Z_le_gt_dec (count_tokens encode (page_content d)) max).
        -- left. tok_norm. lia.
        -- right. exists d. split; [done|lia].
  - apply Z.ltb_ge in Hlt. split; simpl.
    + done.
    + tok_norm. lia.
    + right. split; [by destruct (current_batch st)|].
      left. tok_norm. lia.
Qed.

Lemma loop_inv_preserved max docs st :
  loop_inv encode max st -> loop_inv encode max (loop encode max docs st).
Proof.
  revert st. induction docs as [|d docs IH]; intros st Hst; [done|].
  rewrite loop_cons. apply IH. by apply step_inv.
Qed.

Lemma init_inv max : loop_inv encode max (mkLoop [] [] 0).
Proof. split; simpl; [constructor|done|by left]. Qed.

Lemma finish_ok max st :
  loop_inv encode max st -> Forall (batch_ok encode max) (finish st).
Proof.
  intros [Hcl _ Hop]. unfold finish. case_bool_decide as Hc; [done|].
  destruct Hop as [?|Hop]; [done|].
  apply Forall_app. split; [done|]. by constructor.
Qed.

(** A chunk over the limit that opens a batch stays alone in it. *)
Lemma oversized_alone max d docs :
  max < count_tokens encode (page_content d) ->
  exists bs,
    finish (loop encode max docs
              (mkLoop [] [d] (count_tokens encode (page_content d))))
    = [d] :: bs /\ concat bs = docs.
Proof.
  intros Hbig. destruct docs as [|e docs].
  - exists []. split; reflexivity.
  - rewrite loop_cons. unfold step; simpl.
    pose proof (count_tokens_nonneg (page_content e)) as He.
    replace (max <? _) with true by (symmetry; apply Z.ltb_lt; lia).
    simpl.
    rewrite loop_batches_split.
    eexists. split; [reflexivity|].
    rewrite loop_concat. reflexivity.
Qed.

(** Whatever came before, a chunk over the limit closes the open batch
    and opens its own. *)
Lemma step_oversized max st d :
  loop_inv encode max st ->
  max < count_tokens encode (page_content d) ->
  step encode max st d
  = mkLoop (finish st) [d] (count_tokens encode (page_content d)).
Proof.
  intros [_ Hsum _] Hbig. unfold step, finish.
  case_bool_decide as Hc; simpl.
  - rewrite Hc in *. rewrite batch_tokens_nil in Hsum. rewrite Hsum.
    by rewrite andb_false_r.
  - pose proof (batch_tokens_nonneg (current_batch st)).
    replace (max <? _) with true by (symmetry; apply Z.ltb_lt; lia).
    reflexivity.
Qed.

(** C1. For every list of chunks and every limit (positive or not),
    each batch returned by [create_batches] is non-empty and its token
    sum is at most [max_tokens_per_batch], unless the batch is a single
    chunk whose own token count exceeds the limit; and every chunk whose
    own token count exceeds the limit is returned as a batch of its own,
    at its place in the input: the batches before it hold exactly the
    chunks before it and the batches after it exactly the chunks after
    it. *)
Theorem create_batches_respects_limit docs max_tokens_per_batch :
  (forall b, b ∈ create_batches encode docs max_tokens_per_batch ->
     b <> [] /\
     (batch_tokens encode b <= max_tokens_per_batch \/
      exists d, b = [d] /\
        max_tokens_per_batch < count_tokens encode (page_content d))) /\
  (forall l1 d l2,
     docs = l1 ++ d :: l2 ->
     max_tokens_per_batch < count_tokens encode (page_content d) ->
     exists bs1 bs2,
       create_batches encode docs max_tokens_per_batch
       = bs1 ++ [d] :: bs2 /\
       concat bs1 = l1 /\ concat bs2 = l2).
Proof.
  split.
  - intros b Hb.
    pose proof (finish_ok max_tokens_per_batch _
      (loop_inv_preserved max_tokens_per_batch docs _
         (init_inv max_tokens_per_batch))) as Hall.
    rewrite Forall_forall in Hall. exact (Hall b Hb).
  - intros l1 d l2 -> Hbig. unfold create_batches.
    rewrite loop_app, loop_cons.
    set (st1 := loop encode max_tokens_per_batch l1 (mkLoop [] [] 0)).
    assert (Hinv : loop_inv encode max_tokens_per_batch st1)
      by apply loop_inv_preserved, init_inv.
    rewrite (step_oversized _ _ _ Hinv Hbig).
    rewrite loop_batches_split.
    destruct (oversized_alone max_tokens_per_batch d l2 Hbig)
      as (bs2 & -> & Hbs2).
    exists (finish st1), bs2. split; [reflexivity|]. split; [|done].
    subst st1. by rewrite loop_concat.
Qed.

Lemma create_batches_flatten docs max :
  concat (create_batches encode docs max) = docs.
Proof. unfold create_batches. by rewrite loop_concat. Qed.

Lemma create_batches_nonempty docs max :
  Forall (fun b => b <> []) (create_batches encode docs max).
Proof.
  eapply Forall_impl;
    [apply finish_ok, loop_inv_preserved, init_inv|].
  by intros b [Hb _].
Qed.

(** C2. Concatenating the batches returned by [create_batches], in batch
    order and then within-batch order, gives back the input list. *)
Theorem create_batches_concat docs max_tokens_per_batch :
  concat (create_batches encode docs max_tokens_per_batch) = docs.
Proof. unfold create_batches. by rewrite loop_concat. Qed.

End BatcherProperties.

Section LimiterProperties.
Import Limiter.

(** X4. A call that finds the window full returns only once its oldest
    surviving timestamp is more than a window old; the timestamp it
    records is the one read before the sleep. *)
Lemma wait_if_needed_full_window clock self oldest rest :
  filter (fun req_time => clock - req_time < window_seconds self)
         (requests self) = oldest :: rest ->
  max_requests self <= Z.of_nat (length (oldest :: rest)) ->
  wait_if_needed clock self
  = Ok (oldest + window_seconds self + 1,
        mkLimiter (max_requests self) (window_seconds self)
                  (oldest :: rest ++ [clock])).
Proof.
  intros Hpruned Hfull. unfold wait_if_needed. rewrite Hpruned.
  assert (Hin : oldest ∈ filter
            (fun req_time => clock - req_time < window_seconds self)
            (requests self)) by (rewrite Hpruned; left).
  apply list_elem_of_filter in Hin as [Hrecent _].
  replace (Z.of_nat (length (oldest :: rest)) >=? max_requests self)
    with true by (symmetry; apply Z.geb_le; lia).
  replace (0 <? window_seconds self - (clock - oldest) + 1)
    with true by (symmetry; apply Z.ltb_lt; lia).
  simpl. do 2 f_equal. lia.
Qed.

(** A call that finds room returns at once. *)
Lemma wait_if_needed_room clock self :
  Z.of_nat (length (filter
    (fun req_time => clock - req_time < window_seconds self)
    (requests self))) < max_requests self ->
  wait_if_needed clock self
  = Ok (clock,
        mkLimiter (max_requests self) (window_seconds self)
          (filter (fun req_time => clock - req_time < window_seconds self)
                  (requests self) ++ [clock])).
Proof.
  intros Hroom. unfold wait_if_needed.
  replace (_ >=? _) with false; [reflexivity|].
  symmetry. rewrite Z.geb_leb. apply Z.leb_gt. lia.
Qed.

(** C3 (the code at the failing inputs).  With the default limiter
    (14 requests per 60 seconds):
    - fifteen back-to-back calls at time 0: the fifteenth returns at
      time 61, but it is recorded with the timestamp 0 read before the
      sleep, so the limiter holds fifteen timestamps inside one window;
    - fourteen calls at time 0, one at time 59 and fourteen more as soon
      as that one returns: requests go out at 61 (fourteen of them) and
      at 120, fifteen inside the 60-second window that starts at 61. *)
Theorem wait_if_needed_exceeds_window :
  (exists sent self',
     calls (replicate 15 0) 0 default = Ok (sent, self') /\
     sent = replicate 14 0 ++ [61] /\
     requests self' = replicate 15 0 /\
     Z.of_nat (length (in_window (window_seconds self') 0 (requests self')))
     > max_requests self') /\
  (exists sent self',
     calls (replicate 14 0 ++ [59] ++ replicate 14 0) 0 default
     = Ok (sent, self') /\
     sent = replicate 14 0 ++ replicate 14 61 ++ [120] /\
     Z.of_nat (length (in_window (window_seconds self') 61 sent))
     > max_requests self').
Proof.
  split; eexists _, _; (split; [vm_compute; reflexivity|]);
    repeat split; vm_compute; reflexivity.
Qed.

End LimiterProperties.

Section GatewayProperties.
Import Json Gateway.

Lemma not_rate_limit_forbidden :
  PyStr.contains "rate limit"
    (PyStr.lower "Invalid API key or insufficient permissions") = false.
Proof. vm_compute. reflexivity. Qed.

Lemma not_rate_limit_empty :
  PyStr.contains "rate limit"
    (PyStr.lower "Empty response from Gemini API") = false.
Proof. vm_compute. reflexivity. Qed.

(** A 429 with attempts left sleeps [2 * 2^attempt] and goes round. *)
Lemma iteration_429 max_retries attempt data error_text :
  attempt < max_retries - 1 ->
  iteration max_retries attempt (Response 429 data error_text)
  = Continue (2 ^ attempt * 2).
Proof.
  intros Hleft. unfold iteration, try_block. simpl.
  by replace (attempt <? max_retries - 1) with true
    by (symmetry; apply Z.ltb_lt; lia).
Qed.

(** A 403 leaves the loop with the permission error, whatever is left. *)
Lemma iteration_403 max_retries attempt data error_text :
  iteration max_retries attempt (Response 403 data error_text)
  = Reraise (Exception "Invalid API key or insufficient permissions").
Proof.
  unfold iteration, try_block.
  cbn -[PyStr.contains PyStr.lower Z.ltb Z.sub].
  rewrite not_rate_limit_forbidden. by rewrite andb_false_r.
Qed.

(** Reading a JSON object. *)
Lemma get_field v key : is_object v = true -> get v key = Ok (field key v).
Proof. by destruct v. Qed.

Lemma getitem_field v key :
  truthy (field key v) = true -> getitem v key = Ok (field key v).
Proof.
  destruct v as [| | | | | |entries]; simpl; try done.
  by destruct (lookup_key key entries).
Qed.

(** A body with a first candidate, read up to that candidate. *)
Lemma extract_first_candidate data candidate :
  first_candidate data = Some candidate ->
  extract data
  = res_bind (get candidate "content") (fun found_content =>
    res_bind
      (if truthy found_content
       then res_bind (getitem candidate "content") (fun content =>
            res_bind (get content "parts") (fun found_parts =>
            Ok (truthy found_parts)))
       else Ok false) (fun has_parts =>
    if has_parts then
      res_bind (getitem candidate "content") (fun content =>
      res_bind (getitem content "parts") (fun parts =>
      res_bind (item0 parts) (fun part =>
      getitem part "text")))
    else Raise (Exception "Empty response from Gemini API"))).
Proof.
  unfold first_candidate, extract. intros Hfirst.
  destruct data as [| | | | | |entries]; try done. simpl in *.
  destruct (lookup_key "candidates" entries) as [[| | | | |[|c items]|]|];
    simpl in *; try done.
  injection Hfirst as ->.
  replace (0 <? Z.pos (Pos.of_succ_nat (length items))) with true
    by (symmetry; apply Z.ltb_lt; lia).
  done.
Qed.

(** A body without candidate, without content or without parts raises
    the empty-response exception. *)
Lemma extract_empty data :
  no_candidate data = true \/ no_content data = true \/ no_parts data = true ->
  extract data = Raise (Exception "Empty response from Gemini API").
Proof.
  unfold no_candidate, no_content, no_parts.
  intros [Hnone|Hcandidate].
  - unfold missing in Hnone. apply andb_true_iff in Hnone as [Hobj Hnone].
    apply negb_true_iff in Hnone. unfold extract.
    rewrite (get_field _ _ Hobj). simpl. by rewrite Hnone.
  - destruct (first_candidate data) as [candidate|] eqn:Hfirst;
      [|by destruct Hcandidate].
    rewrite (extract_first_candidate _ _ Hfirst).
    destruct Hcandidate as [Hcontent|Hparts].
    + unfold missing in Hcontent.
      apply andb_true_iff in Hcontent as [Hobj Hcontent].
      apply negb_true_iff in Hcontent.
      rewrite (get_field _ _ Hobj). simpl. by rewrite Hcontent.
    + apply andb_true_iff in Hparts as [Hcontent Hparts].
      unfold missing in Hparts. apply andb_true_iff in Hparts as [Hobj Hparts].
      apply negb_true_iff in Hparts.
      assert (Hcand : is_object candidate = true) by (by destruct candidate).
      rewrite (get_field _ _ Hcand). simpl. rewrite Hcontent.
      rewrite (getitem_field _ _ Hcontent). simpl.
      rewrite (get_field _ _ Hobj). simpl. by rewrite Hparts.
Qed.

(** The extraction returns exactly what the first part of the first
    candidate holds under ["text"]. *)
Lemma extract_text data t :
  first_text data = Some t <-> extract data = Ok t.
Proof.
  unfold first_text.
  destruct (first_candidate data) as [candidate|] eqn:Hfirst.
  - rewrite (extract_first_candidate _ _ Hfirst).
    destruct candidate as [| | | | | |centries]; simpl; try done.
    destruct (lookup_key "content" centries)
      as [[| | | | | |content]|]; simpl; try done.
    all: try (by repeat case_match).
    destruct content as [|entry content']; [done|].
    cbn -[lookup_key].
    destruct (lookup_key "parts" (entry :: content'))
      as [[| | | | |[|part parts]|]|]; cbn -[lookup_key]; try done.
    all: try (by repeat case_match).
    destruct part as [| | | | | |part]; cbn -[lookup_key]; try done.
    destruct (lookup_key "text" part); simpl; split; congruence.
  - split; [done|]. unfold first_candidate, extract in *.
    destruct data as [| | | | | |entries]; try done. simpl in *.
    destruct (lookup_key "candidates" entries) as [[| | | | |[|c items]|]|];
      simpl in *; try done.
    all: by repeat case_match.
Qed.

(** The exceptions Python raises while the body is read are no timeouts
    and do not mention "rate limit". *)
Lemma get_quiet v key e : get v key = Raise e -> quiet e.
Proof.
  destruct v; simpl; intros [= <-]; split; try done; vm_compute; reflexivity.
Qed.

Lemma len_quiet v e : len v = Raise e -> quiet e.
Proof.
  destruct v; simpl; intros [= <-]; split; try done; vm_compute; reflexivity.
Qed.

Lemma item0_quiet v e : item0 v = Raise e -> quiet e.
Proof.
  destruct v as [| | | |[|c s]|[|item items]|]; simpl; intros [= <-];
    split; try done; vm_compute; reflexivity.
Qed.

Lemma getitem_quiet v key e :
  PyStr.contains "rate limit" (PyStr.lower ("'" +:+ key +:+ "'")) = false ->
  getitem v key = Raise e -> quiet e.
Proof.
  intros Hkey.
  destruct v as [| | | | | |entries]; simpl;
    try (intros [= <-]; split; try done; vm_compute; reflexivity).
  destruct (lookup_key key entries); intros [= <-]. by split.
Qed.

Lemma res_bind_raise {A B} (r : res A) (k : A -> res B) e :
  res_bind r k = Raise e ->
  r = Raise e \/ exists a, r = Ok a /\ k a = Raise e.
Proof.
  destruct r as [a|e']; simpl; intros H; [right; by exists a|].
  left. by injection H as ->.
Qed.

Lemma extract_quiet data e : extract data = Raise e -> quiet e.
Proof.
  assert (Hempty : quiet (Exception "Empty response from Gemini API"))
    by (split; [done|vm_compute; reflexivity]).
  unfold extract. intros Hraise.
  repeat match goal with
  | H : res_bind _ _ = Raise _ |- _ =>
      apply res_bind_raise in H as [H|(? & ? & H)]
  | H : (if ?b then _ else _) = Raise _ |- _ => destruct b
  | H : get _ _ = Raise _ |- _ => by eapply get_quiet
  | H : len _ = Raise _ |- _ => by eapply len_quiet
  | H : item0 _ = Raise _ |- _ => by eapply item0_quiet
  | H : getitem _ _ = Raise _ |- _ =>
      by (eapply getitem_quiet; [|exact H]; vm_compute; reflexivity)
  | H : Raise _ = Raise _ |- _ => injection H as <-; exact Hempty
  | H : Ok _ = Raise _ |- _ => discriminate H
  end.
Qed.

(** A 200 ends the call, whatever its body and whatever attempts are
    left: with the value extracted, or with the exception of the
    extraction. *)
Lemma iteration_200 max_retries attempt data error_text :
  iteration max_retries attempt (Response 200 data error_text)
  = match extract data with
    | Ok t => Return t
    | Raise e => Reraise e
    end.
Proof.
  unfold iteration, try_block. change (200 =? 200) with true. cbv iota.
  destruct (extract data) as [t|e] eqn:Hextract; [done|].
  apply extract_quiet in Hextract as [Htimeout Hquiet].
  cbn [res_bind]. rewrite Hquiet, andb_false_r. by destruct e.
Qed.

(** A 200 without candidate content leaves the loop with the
    empty-response error, whatever is left. *)
Lemma iteration_empty max_retries attempt data error_text :
  no_candidate data = true \/ no_content data = true \/ no_parts data = true ->
  iteration max_retries attempt (Response 200 data error_text)
  = Reraise (Exception "Empty response from Gemini API").
Proof. intros Hempty. by rewrite iteration_200, (extract_empty _ Hempty). Qed.

Lemma iteration_success max_retries attempt data error_text t :
  extract data = Ok t ->
  iteration max_retries attempt (Response 200 data error_text) = Return t.
Proof. intros Hok. by rewrite iteration_200, Hok. Qed.

(** C4. When the first two attempts meet HTTP 429 and the third a 200
    whose first candidate carries text, a call with at least three
    attempts allowed (the default is three) returns that text after
    exactly three attempts, having slept 2 and then 4 seconds: the sum of
    the first two backoff delays [2 * 2^0 + 2 * 2^1]. *)
Theorem retry_429_429_success server max_retries d0 e0 d1 e1 d2 e2 t :
  3 <= max_retries ->
  server 0%nat = Response 429 d0 e0 ->
  server 1%nat = Response 429 d1 e1 ->
  server 2%nat = Response 200 d2 e2 ->
  extract d2 = Ok t ->
  let call := call_gemini_api_with_retry server max_retries in
  result call = Ok t /\
  attempts call = 3%nat /\
  sleeps call = [2 * 2 ^ 0; 2 * 2 ^ 1] /\
  foldr Z.add 0 (sleeps call) = 6.
Proof.
  intros Hmax H0 H1 H2 Ht. unfold call_gemini_api_with_retry.
  destruct (Z.to_nat max_retries) as [|[|[|n]]] eqn:Hn; try lia.
  cbn [attempts_loop].
  rewrite H0, iteration_429 by lia.
  rewrite H1, iteration_429 by lia.
  rewrite H2, (iteration_success _ _ _ _ t Ht).
  simpl. repeat split; reflexivity.
Qed.

(** C5. When the first attempt meets HTTP 403, the call makes exactly
    one attempt, sleeps not at all, and raises the permission error. *)
Theorem forbidden_not_retried server max_retries data error_text :
  1 <= max_retries ->
  server 0%nat = Response 403 data error_text ->
  call_gemini_api_with_retry server max_retries
  = mkTrace
      (Raise (Exception "Invalid API key or insufficient permissions"))
      1 [].
Proof.
  intros Hmax H0. unfold call_gemini_api_with_retry.
  destruct (Z.to_nat max_retries) as [|n] eqn:Hn; [lia|].
  cbn [attempts_loop]. by rewrite H0, iteration_403.
Qed.

(** C6 (as amended). An HTTP 200 whose body is a JSON object without
    candidate (the key is absent, [null] or empty), or whose first
    candidate is an object without content, or with a content without
    parts, is an empty response and ends the call with the empty-response
    error: wherever in the loop it occurs, that attempt is the last one
    and no sleep follows it, whatever attempts remain; in particular,
    when it is the first response, the call raises after exactly one
    attempt without having slept. *)
Theorem empty_response_surfaced server max_retries data error_text :
  no_candidate data = true \/ no_content data = true \/ no_parts data = true ->
  extract data = Raise (Exception "Empty response from Gemini API") /\
  (forall remaining attempt slept,
     server attempt = Response 200 data error_text ->
     attempts_loop server max_retries (S remaining) attempt slept
     = mkTrace (Raise (Exception "Empty response from Gemini API"))
               (S attempt) slept) /\
  (1 <= max_retries ->
   server 0%nat = Response 200 data error_text ->
   call_gemini_api_with_retry server max_retries
   = mkTrace (Raise (Exception "Empty response from Gemini API")) 1 []).
Proof.
  intros Hempty.
  assert (Hloop : forall remaining attempt slept,
     server attempt = Response 200 data error_text ->
     attempts_loop server max_retries (S remaining) attempt slept
     = mkTrace (Raise (Exception "Empty response from Gemini API"))
               (S attempt) slept).
  { intros remaining attempt slept Hresp. cbn [attempts_loop].
    by rewrite Hresp, (iteration_empty _ _ _ _ Hempty). }
  split; [by apply extract_empty|]. split; [exact Hloop|].
  intros Hmax Hresp. unfold call_gemini_api_with_retry.
  destruct (Z.to_nat max_retries) as [|n] eqn:Hn; [lia|].
  by apply Hloop.
Qed.

End GatewayProperties.

Section StoreProperties.
Import Store.
Context {Vec : Type}.
Variable embeddings_error : option exn.
Variable from_documents : list Document -> res (@vectorstore Vec).
Variable add_documents :
  @vectorstore Vec -> list Document -> res (@vectorstore Vec).
Variable save_failure :
  @vectorstore Vec -> string -> option (@persisted Vec) ->
  option (exn * option (@persisted Vec)).

(** [save_local] writes to its own directory only. *)
Lemma save_local_frame vs path (fs : gmap string (@persisted Vec)) other :
  other <> path ->
  (save_local save_failure vs path fs).2 !! other = fs !! other.
Proof.
  intros Hother. unfold save_local.
  destruct (save_failure vs path (fs !! path)) as [[e [remains|]]|]; simpl.
  - by apply lookup_insert_ne.
  - by apply lookup_delete_ne.
  - by apply lookup_insert_ne.
Qed.

(** What [save_local] returns and leaves in its directory. *)
Lemma save_local_outcome vs path (fs : gmap string (@persisted Vec)) :
  match save_failure vs path (fs !! path) with
  | None =>
      (save_local save_failure vs path fs).1 = Ok tt /\
      (save_local save_failure vs path fs).2 !! path
      = Some (mkPersisted vs None)
  | Some (e, remains) =>
      (save_local save_failure vs path fs).1 = Raise e /\
      (save_local save_failure vs path fs).2 !! path = remains
  end.
Proof.
  unfold save_local.
  destruct (save_failure vs path (fs !! path)) as [[e [remains|]]|]; simpl.
  - split; [done|]. apply lookup_insert_eq.
  - split; [done|]. apply lookup_delete_eq.
  - split; [done|]. apply lookup_insert_eq.
Qed.

(** C7 (as amended). For a directory that already holds a collection,
    with a FAISS whose [add_documents] only appends to the store it is
    given: [build_vectordb] touches no other directory; when the
    embedding model cannot be had it raises and nothing has changed;
    otherwise
    - when the collection can be loaded and the chunks can be added, the
      store it saves is the previous records followed by new ones, and
      nothing is warned;
    - when loading raises, or adding raises after the collection was
      loaded, it warns and saves the store that [FAISS.from_documents]
      builds from the new chunks alone; when that raises,
      [build_vectordb] raises and nothing on disk has changed.
    The store is saved before it is returned: when [save_local] raises,
    [build_vectordb] raises and the directory holds what the failed save
    left. *)
Theorem build_vectordb_existing fs chunks directory_name p :
  (forall vs vs', add_documents vs chunks = Ok vs' ->
                  exists new, vs' = vs ++ new) ->
  fs !! (directory_name +:+ "_vectorstore") = Some p ->
  let path := directory_name +:+ "_vectorstore" in
  let out :=
    build_vectordb embeddings_error from_documents add_documents
                   save_failure fs chunks directory_name in
  let saved_as vs :=
    match save_failure vs path (Some p) with
    | None =>
        returned out = Ok vs /\
        disk out !! path = Some (mkPersisted vs None)
    | Some (e, remains) =>
        returned out = Raise e /\ disk out !! path = remains
    end in
  (forall other, other <> path -> disk out !! other = fs !! other) /\
  match embeddings_error with
  | Some e => returned out = Raise e /\ disk out = fs /\ warnings out = []
  | None =>
      match res_bind (load_local p) (fun vs => add_documents vs chunks) with
      | Ok vs =>
          (exists new, vs = records p ++ new) /\
          warnings out = [] /\
          saved_as vs
      | Raise e =>
          warnings out
          = ["Error loading existing vector store: " +:+ str e
             +:+ ". Creating new one."] /\
          match from_documents chunks with
          | Ok new => saved_as new
          | Raise e' => returned out = Raise e' /\ disk out = fs
          end
      end
  end.
Proof.
  intros Happends Hp path out saved_as. subst out saved_as path.
  assert (Hsaved : forall vs warned,
    let out :=
      let '(saved, fs') :=
        save_local save_failure vs (directory_name +:+ "_vectorstore") fs in
      mkOutcome (res_bind saved (fun _ => Ok vs)) fs' warned in
    (forall other, other <> directory_name +:+ "_vectorstore" ->
                   disk out !! other = fs !! other) /\
    warnings out = warned /\
    match save_failure vs (directory_name +:+ "_vectorstore") (Some p) with
    | None =>
        returned out = Ok vs /\
        disk out !! (directory_name +:+ "_vectorstore")
        = Some (mkPersisted vs None)
    | Some (e, remains) =>
        returned out = Raise e /\
        disk out !! (directory_name +:+ "_vectorstore") = remains
    end).
  { intros vs warned.
    pose proof (save_local_outcome vs (directory_name +:+ "_vectorstore") fs)
      as Hout.
    pose proof (fun other =>
                  save_local_frame vs (directory_name +:+ "_vectorstore") fs
                                   other) as Hframe.
    rewrite Hp in Hout.
    destruct (save_local save_failure vs _ fs) as [saved fs'].
    simpl in *. split; [exact Hframe|]. split; [done|].
    destruct (save_failure vs _ (Some p)) as [[e remains]|];
      destruct Hout as [-> Hdisk]; by split. }
  unfold build_vectordb. destruct embeddings_error as [e|]; [done|].
  rewrite Hp.
  destruct (res_bind (load_local p) _) as [vs|e] eqn:Hadd.
  - destruct (Hsaved vs []) as (Hframe & Hwarn & Hsave).
    split; [exact Hframe|]. split; [|by split].
    unfold load_local in Hadd.
    destruct (load_error p); [done|]. simpl in Hadd.
    by apply (Happends _ _ Hadd).
  - destruct (from_documents chunks) as [new|e'].
    + destruct (Hsaved new
                  ["Error loading existing vector store: " +:+ str e
                   +:+ ". Creating new one."]) as (Hframe & Hwarn & Hsave).
      split; [exact Hframe|]. by split.
    + simpl. by repeat split.
Qed.

End StoreProperties.

Section UploadProperties.
Import Upload.
Variable MAX_FILE_SIZE : Z.
Context {V : Type}.
Variable process_document : string -> string -> list Document.
Variable split_documents : list Document -> list Document.
Variable build_vectordb : list Document -> string -> V -> res unit * V.
Variable open_error : string -> @server V -> option exn.

(** A file with an extension outside the allowed list, and not over the
    size limit, is skipped: the loop goes on with the state unchanged. *)
Lemma handle_file_unsupported category target_dir file name st :
  too_large MAX_FILE_SIZE file = false ->
  filename file = Some name ->
  PyStr.lower (PyStr.suffix name) ∉ allowed_extensions ->
  handle_file MAX_FILE_SIZE process_document split_documents build_vectordb
              open_error category target_dir file st
  = (None, st).
Proof.
  intros Hsmall Hname Hext. unfold handle_file. destruct st as [srv loc].
  rewrite Hsmall, Hname. by rewrite bool_decide_eq_false_2.
Qed.

Lemma handle_files_app category target_dir files1 files2 st :
  handle_files MAX_FILE_SIZE process_document split_documents
               build_vectordb open_error category target_dir
               (files1 ++ files2) st
  = match handle_files MAX_FILE_SIZE process_document split_documents
                       build_vectordb open_error category target_dir
                       files1 st with
    | (None, st') =>
        handle_files MAX_FILE_SIZE process_document split_documents
                     build_vectordb open_error category target_dir files2 st'
    | (Some e, st') => (Some e, st')
    end.
Proof.
  revert st. induction files1 as [|file files1 IH]; intros st; [done|].
  simpl. destruct (handle_file _ _ _ _ _ _ _ _ _) as [[e|] st']; [done|].
  apply IH.
Qed.

(** An oversized file ends the request: the files before it have been
    handled, the files after it are not looked at, and the exception that
    leaves the endpoint is the 500 raised by its [except] clause, with
    the 413 as its cause. *)
Lemma upload_oversized_is_500 category before big rest srv srv' loc :
  category ∈ ["rag"; "cag"; "mapping"] ->
  handle_files MAX_FILE_SIZE process_document split_documents
               build_vectordb open_error category (category +:+ "_docs")
               before (srv, mkLocals [] 0)
  = (None, (srv', loc)) ->
  too_large MAX_FILE_SIZE big = true ->
  upload_corporate_documents MAX_FILE_SIZE process_document
    split_documents build_vectordb open_error category
    (before ++ big :: rest) srv
  = (inr (HTTPException 500
            (ProcessingError
               (HTTPException 413
                  (ExceedsMaximumSize (default "None" (filename big)))))),
     log_audit_event "document_upload_failed" false srv').
Proof.
  intros Hcat Hbefore Hbig. unfold upload_corporate_documents.
  rewrite bool_decide_eq_true_2 by done. simpl negb. cbv iota.
  rewrite handle_files_app, Hbefore. simpl.
  unfold handle_file. by rewrite Hbig.
Qed.

End UploadProperties.

(** C10 (the code at the failing input). Three uploads to category
    ["rag"] with the default size limit, the second one byte over it: the
    first file is saved and indexed, the third is not looked at, and the
    request ends with HTTP 500 (whose cause is the 413), not with HTTP
    413. *)
Theorem upload_oversized_status :
  Upload.upload_corporate_documents 10485760 Upload.one_document
    (fun docs => docs) Upload.count_chunks Upload.flat_directory "rag"
    Upload.three_uploads Upload.empty_server
  = (inr (Upload.HTTPException 500
            (Upload.ProcessingError
               (Upload.HTTPException 413
                  (Upload.ExceedsMaximumSize "big.pdf")))),
     Upload.mkServer [("rag_docs/a.pdf", "hello")] [("rag_docs", 1%nat)]
                     [("document_upload_failed", false)]).
Proof. vm_compute. reflexivity. Qed.

Section LoaderProperties.
Import Loader.
Variables PyPDFLoader CSVLoader UnstructuredExcelLoader TextLoader
          Docx2txtLoader : string -> res (list Document).
Variable split_documents : list Document -> list Document.

(** C9 (as amended). [process_document] never raises: it hands the path
    to the PDF, CSV or Excel loader when the lower-cased suffix is
    [.pdf], [.csv] or [.xlsx], and to the text loader for every other
    suffix, recognized or not; it returns the loader's documents, or the
    empty list (with an error message) when the loader raises.
    [create_openai_embeddings] raises [ValueError] ("Unsupported file
    type") exactly for the paths that end neither in [.docx] nor in
    [.pdf], and otherwise returns the chunks of what the Word or PDF
    loader read. *)
Theorem loaders_by_extension file_path :
  let ext := PyStr.lower (PyStr.suffix file_path) in
  let collapse (r : res (list Document)) :=
    match r with Ok documents => documents | Raise _ => [] end in
  let run := process_document PyPDFLoader CSVLoader
               UnstructuredExcelLoader TextLoader file_path in
  (ext = ".pdf" -> run.1 = collapse (PyPDFLoader file_path)) /\
  (ext = ".csv" -> run.1 = collapse (CSVLoader file_path)) /\
  (ext = ".xlsx" -> run.1 = collapse (UnstructuredExcelLoader file_path)) /\
  (ext ∉ [".pdf"; ".csv"; ".xlsx"] ->
     run.1 = collapse (TextLoader file_path)) /\
  (PyStr.endswith ".docx" file_path = false ->
   PyStr.endswith ".pdf" file_path = false ->
   create_openai_embeddings PyPDFLoader Docx2txtLoader split_documents
     file_path
   = Raise (ValueError ("Unsupported file type: " +:+ file_path))) /\
  (PyStr.endswith ".docx" file_path = true ->
   create_openai_embeddings PyPDFLoader Docx2txtLoader split_documents
     file_path
   = res_bind (Docx2txtLoader file_path)
              (fun documents => Ok (split_documents documents))) /\
  (PyStr.endswith ".docx" file_path = false ->
   PyStr.endswith ".pdf" file_path = true ->
   create_openai_embeddings PyPDFLoader Docx2txtLoader split_documents
     file_path
   = res_bind (PyPDFLoader file_path)
              (fun documents => Ok (split_documents documents))).
Proof.
  intros ext collapse run. subst run. unfold process_document.
  fold ext. repeat split.
  - intros ->. simpl. by destruct (PyPDFLoader file_path).
  - intros ->. simpl. by destruct (CSVLoader file_path).
  - intros ->. simpl. by destruct (UnstructuredExcelLoader file_path).
  - intros Hnot.
    repeat (apply not_elem_of_cons in Hnot as [? Hnot]).
    do 3 (rewrite (proj2 (String.eqb_neq _ _)) by done).
    by destruct (TextLoader file_path).
  - intros Hdocx Hpdf. unfold create_openai_embeddings.
    by rewrite Hdocx, Hpdf.
  - intros Hdocx. unfold create_openai_embeddings. by rewrite Hdocx.
  - intros Hdocx Hpdf. unfold create_openai_embeddings.
    by rewrite Hdocx, Hpdf.
Qed.

End LoaderProperties.

Section IngestProperties.
Import Ingest.
Variable encode : string -> list nat.
Variables PyPDFLoader Docx2txtLoader : string -> res (list Document).
Variable split_documents : list Document -> list Document.
Context {Vec : Type}.
Variable embed_documents : list string -> res (list Vec).
Variable files_dir : string.

(** The loaders put the path they were given in [metadata["source"]]
    and the splitter copies the metadata to every chunk. *)
Hypothesis loaders_keep_source : forall doc_path docs d,
  Loader.create_openai_embeddings PyPDFLoader Docx2txtLoader
    split_documents doc_path = Ok docs ->
  d ∈ docs -> metadata d !! "source" = Some doc_path.


Lemma add_documents_extends db batch db' :
  add_documents embed_documents db batch = Ok db' ->
  exists extra, db' = db ++ extra /\ forall r, r ∈ extra -> r.1 ∈ batch.
Proof.
  unfold add_documents.
  destruct (embed_documents (map page_content batch)) as [vectors|e];
    simpl; [|done].
  intros [= <-]. eexists. split; [reflexivity|].
  intros [d v] Hr. by eapply elem_of_zip_l.
Qed.

Lemma add_batches_tolerant_cons db b batches :
  add_batches_tolerant embed_documents db (b :: batches)
  = add_batches_tolerant embed_documents
      (match add_documents embed_documents db b with
       | Ok db' => db'
       | Raise _ => db
       end) batches.
Proof. reflexivity. Qed.

(** Adding batches to an existing store only appends records, and every
    record appended comes from one of the batches. *)
Lemma add_batches_tolerant_extends batches db :
  exists extra,
    add_batches_tolerant embed_documents db batches = db ++ extra /\
    forall r, r ∈ extra -> In r.1 (concat batches).
Proof.
  revert db. induction batches as [|b batches IH]; intros db.
  - exists []. split; [by rewrite app_nil_r|]. by intros r ?%elem_of_nil.
  - rewrite add_batches_tolerant_cons. simpl concat.
    destruct (add_documents embed_documents db b) as [db'|e] eqn:Hadd.
    + destruct (add_documents_extends _ _ _ Hadd) as (x1 & -> & Hx1).
      destruct (IH (db ++ x1)) as (x2 & -> & Hx2).
      exists (x1 ++ x2). split; [by rewrite app_assoc|].
      intros r [Hr|Hr]%elem_of_app; apply in_or_app.
      * left. apply list_elem_of_In. by apply Hx1.
      * right. by apply Hx2.
    + destruct (IH db) as (x2 & -> & Hx2).
      exists x2. split; [done|].
      intros r Hr. apply in_or_app. right. by apply Hx2.
Qed.





End IngestProperties.

(* ===================================================================== *)
(** * Part III: the properties at concrete inputs                         *)
(* ===================================================================== *)

(** The scenario of the specification: chunks of 50, 60 and 70 tokens
    under a limit of 100 give three batches of one chunk each. *)
Example create_batches_50_60_70 :
  Batcher.create_batches Batcher.char_tokens
    [Batcher.chunk 50; Batcher.chunk 60; Batcher.chunk 70] 100
  = [[Batcher.chunk 50]; [Batcher.chunk 60]; [Batcher.chunk 70]].
Proof. vm_compute. reflexivity. Qed.

(** Chunks that fit are grouped. *)
Example create_batches_groups :
  Batcher.create_batches Batcher.char_tokens
    [Batcher.chunk 3; Batcher.chunk 4; Batcher.chunk 5; Batcher.chunk 2] 8
  = [[Batcher.chunk 3; Batcher.chunk 4]; [Batcher.chunk 5; Batcher.chunk 2]].
Proof. vm_compute. reflexivity. Qed.

(** C1 at a concrete input: a chunk of 12 tokens under a limit of 10,
    between two small chunks, ends up alone in the second batch. *)
Lemma create_batches_respects_limit_witness :
  exists bs1 bs2,
    Batcher.create_batches Batcher.char_tokens
      [Batcher.chunk 3; Batcher.chunk 12; Batcher.chunk 4] 10
    = bs1 ++ [Batcher.chunk 12] :: bs2 /\
    concat bs1 = [Batcher.chunk 3] /\ concat bs2 = [Batcher.chunk 4].
Proof.
  apply (proj2 (create_batches_respects_limit Batcher.char_tokens
                  [Batcher.chunk 3; Batcher.chunk 12; Batcher.chunk 4] 10)
               [Batcher.chunk 3] (Batcher.chunk 12) [Batcher.chunk 4]).
  - reflexivity.
  - vm_compute. reflexivity.
Defined.

(** C4 at a concrete input: 429, 429, then a 200 with text. *)
Lemma retry_429_429_success_witness :
  let call :=
    Gateway.call_gemini_api_with_retry Gateway.server_429_429_ok 3 in
  Gateway.result call = Ok (Json.JStr "Antwort") /\
  Gateway.attempts call = 3%nat /\
  Gateway.sleeps call = [2 * 2 ^ 0; 2 * 2 ^ 1] /\
  foldr Z.add 0 (Gateway.sleeps call) = 6.
Proof.
  apply (retry_429_429_success Gateway.server_429_429_ok 3
           Gateway.body_without_candidates "quota"
           Gateway.body_without_candidates "quota"
           (Gateway.body_with_text "Antwort") "" (Json.JStr "Antwort")).
  - lia.
  - reflexivity.
  - reflexivity.
  - reflexivity.
  - reflexivity.
Defined.

(** C5 at a concrete input: a server that answers 403. *)
Lemma forbidden_not_retried_witness :
  Gateway.call_gemini_api_with_retry Gateway.server_403 3
  = Gateway.mkTrace
      (Raise (Exception "Invalid API key or insufficient permissions"))
      1 [].
Proof.
  apply (forbidden_not_retried Gateway.server_403 3
           Gateway.body_without_candidates "forbidden").
  - lia.
  - reflexivity.
Defined.

(** C6 as stated fails: with three attempts allowed, a first response 200
    without candidates is not retried, although the second attempt would
    have succeeded: the call does not sleep 2 seconds and return the text
    after two attempts; it raises after one.  And a first candidate whose
    text is the empty string is no failure at all: the empty string is
    returned. *)
Lemma empty_response_not_retried :
  Gateway.server_empty_then_ok 0
  = Gateway.Response 200 Gateway.body_without_candidates "" /\
  Gateway.call_gemini_api_with_retry Gateway.server_empty_then_ok 3
  = Gateway.mkTrace (Raise (Exception "Empty response from Gemini API")) 1 []
  /\
  Gateway.call_gemini_api_with_retry Gateway.server_empty_then_ok 3
  <> Gateway.mkTrace (Ok (Json.JStr "Antwort")) 2 [2 * 2 ^ 0] /\
  Gateway.call_gemini_api_with_retry
    (Gateway.server_200 (Gateway.body_with_text "")) 3
  = Gateway.mkTrace (Ok (Json.JStr "")) 1 [].
Proof.
  split; [reflexivity|]. split; [vm_compute; reflexivity|].
  split; [vm_compute; discriminate|]. vm_compute. reflexivity.
Qed.

(** C6 as amended, at a body without candidates, at a body whose
    candidate has no content and at a body whose content has no parts,
    each as the first response of a call with three attempts allowed. *)
Lemma empty_response_surfaced_witness :
  Gateway.call_gemini_api_with_retry Gateway.server_empty_then_ok 3
  = Gateway.mkTrace (Raise (Exception "Empty response from Gemini API")) 1 []
  /\
  Gateway.call_gemini_api_with_retry
    (Gateway.server_200 Gateway.body_without_content) 3
  = Gateway.mkTrace (Raise (Exception "Empty response from Gemini API")) 1 []
  /\
  Gateway.call_gemini_api_with_retry
    (Gateway.server_200 Gateway.body_without_parts) 3
  = Gateway.mkTrace (Raise (Exception "Empty response from Gemini API")) 1 [].
Proof.
  split; [|split].
  - apply (proj2 (proj2 (empty_response_surfaced Gateway.server_empty_then_ok
                           3 Gateway.body_without_candidates ""
                           (or_introl eq_refl)))).
    + lia.
    + reflexivity.
  - apply (proj2 (proj2 (empty_response_surfaced
                           (Gateway.server_200 Gateway.body_without_content)
                           3 Gateway.body_without_content ""
                           (or_intror (or_introl eq_refl))))).
    + lia.
    + reflexivity.
  - apply (proj2 (proj2 (empty_response_surfaced
                           (Gateway.server_200 Gateway.body_without_parts)
                           3 Gateway.body_without_parts ""
                           (or_intror (or_intror eq_refl))))).
    + lia.
    + reflexivity.
Defined.

(** C7 as stated fails, twice.  The directory holds one record but cannot
    be loaded: after [build_vectordb] adds one chunk, the directory holds
    the new record only.  And the directory holds one record and can be
    loaded, but the index rejects the new vectors: [build_vectordb] warns
    and the directory again holds the new record only. *)
Lemma build_vectordb_replaces_unreadable :
  let out :=
    Store.build_vectordb None Store.example_from_documents
      Store.example_add_documents Store.always_saved
      Store.unreadable_disk [Store.new_chunk] "rag_docs" in
  let out' :=
    Store.build_vectordb None Store.example_from_documents
      Store.example_add_documents Store.always_saved
      Store.readable_disk [Store.new_chunk] "rag_docs" in
  (Store.unreadable_disk !! "rag_docs_vectorstore"
   = Some (Store.mkPersisted [(Store.old_chunk, 3%nat)]
                             (Some (Exception "bad index"))) /\
   Store.returned out = Ok [(Store.new_chunk, 5%nat)] /\
   Store.disk out !! "rag_docs_vectorstore"
   = Some (Store.mkPersisted [(Store.new_chunk, 5%nat)] None)) /\
  (Store.readable_disk !! "rag_docs_vectorstore"
   = Some (Store.mkPersisted [(Store.old_chunk, 3%nat)] None) /\
   Store.load_local (Store.mkPersisted [(Store.old_chunk, 3%nat)] None)
   = Ok [(Store.old_chunk, 3%nat)] /\
   Store.returned out' = Ok [(Store.new_chunk, 5%nat)] /\
   Store.disk out' !! "rag_docs_vectorstore"
   = Some (Store.mkPersisted [(Store.new_chunk, 5%nat)] None) /\
   Store.warnings out'
   = ["Error loading existing vector store: the vectors do not fit the index. Creating new one."]) /\
  (Store.old_chunk, 3%nat) ∉ [(Store.new_chunk, 5%nat)].
Proof.
  repeat split; try (vm_compute; reflexivity).
  intros Hin. apply list_elem_of_singleton in Hin. discriminate Hin.
Qed.

(** The example index only appends. *)
Lemma example_add_documents_appends vs chunks vs' :
  Store.example_add_documents vs chunks = Ok vs' ->
  exists new, vs' = vs ++ new.
Proof.
  unfold Store.example_add_documents.
  destruct (forallb _ chunks); [|done]. intros [= <-]. by eexists.
Qed.

(** C7 as amended, at a directory that loads and a chunk the index
    takes: the old record is kept, the new one follows it, and the store
    is saved. *)
Lemma build_vectordb_existing_witness :
  let out :=
    Store.build_vectordb None Store.example_from_documents
      Store.example_add_documents Store.always_saved
      Store.readable_disk [Store.small_chunk] "rag_docs" in
  (forall other, other <> "rag_docs" +:+ "_vectorstore" ->
                 Store.disk out !! other = Store.readable_disk !! other) /\
  (exists new,
     [(Store.old_chunk, 3%nat); (Store.small_chunk, 4%nat)]
     = [(Store.old_chunk, 3%nat)] ++ new) /\
  Store.warnings out = [] /\
  Store.returned out
  = Ok [(Store.old_chunk, 3%nat); (Store.small_chunk, 4%nat)] /\
  Store.disk out !! ("rag_docs" +:+ "_vectorstore")
  = Some (Store.mkPersisted
            [(Store.old_chunk, 3%nat); (Store.small_chunk, 4%nat)] None).
Proof.
  apply (build_vectordb_existing None Store.example_from_documents
           Store.example_add_documents Store.always_saved
           Store.readable_disk [Store.small_chunk] "rag_docs"
           (Store.mkPersisted [(Store.old_chunk, 3%nat)] None)).
  - intros vs vs'. apply example_add_documents_appends.
  - vm_compute. reflexivity.
Defined.



(** C9 as stated fails: [report.exe] has no recognized extension, yet
    [process_document] hands it to the text loader and returns what that
    loader reads, or the empty list when the loader raises: it raises
    nothing.  And [notes.txt] is plain text, yet
    [create_openai_embeddings] raises on it. *)
Lemma unsupported_extension_is_loaded :
  PyStr.lower (PyStr.suffix "report.exe") = ".exe" /\
  Loader.process_document Loader.failing_loader Loader.failing_loader
    Loader.failing_loader Loader.echo_loader "report.exe"
  = ([mkDocument "report.exe" {[ "source" := "report.exe" ]}], []) /\
  Loader.process_document Loader.echo_loader Loader.echo_loader
    Loader.echo_loader Loader.failing_loader "report.exe"
  = ([], ["Error loading report.exe: cannot read"]) /\
  Loader.create_openai_embeddings Loader.echo_loader Loader.echo_loader
    (fun documents => documents) "notes.txt"
  = Raise (ValueError "Unsupported file type: notes.txt").
Proof. repeat split; vm_compute; reflexivity. Qed.

(** C9 as amended, at [report.exe]. *)
Lemma loaders_by_extension_witness :
  (Loader.process_document Loader.failing_loader Loader.failing_loader
     Loader.failing_loader Loader.echo_loader "report.exe").1
  = [mkDocument "report.exe" {[ "source" := "report.exe" ]}] /\
  Loader.create_openai_embeddings Loader.echo_loader Loader.echo_loader
    (fun documents => documents) "report.exe"
  = Raise (ValueError "Unsupported file type: report.exe").
Proof.
  pose proof (loaders_by_extension Loader.failing_loader
                Loader.failing_loader Loader.failing_loader
                Loader.echo_loader Loader.echo_loader
                (fun documents => documents) "report.exe")
    as (_ & _ & _ & Htext & Hunsupported & _).
  split.
  - apply Htext. apply (bool_decide_unpack _). vm_compute. exact I.
  - apply Hunsupported; reflexivity.
Defined.


(* ===================================================================== *)
(** * Part IV: further properties of the code                             *)
(* ===================================================================== *)

Section BatcherFurther.
Import Batcher.
Variable encode : string -> list nat.

Lemma tight_cons_cons max b1 b2 bs :
  tight encode max (b1 :: b2 :: bs)
  <-> match b2 with
      | d :: _ =>
          max < batch_tokens encode b1 + count_tokens encode (page_content d)
      | [] => True
      end /\ tight encode max (b2 :: bs).
Proof. simpl. by destruct b2. Qed.

(** Growing the last batch at its end keeps the batches tight. *)
Lemma tight_grow_last max bs c d :
  c <> [] -> tight encode max (bs ++ [c]) ->
  tight encode max (bs ++ [c ++ [d]]).
Proof.
  intros Hc. induction bs as [|b1 bs IH]; [by simpl|].
  destruct bs as [|b2 bs].
  - simpl. destruct c as [|d0 c]; [done|]. simpl. tauto.
  - change ((b1 :: b2 :: bs) ++ [c]) with (b1 :: b2 :: (bs ++ [c])).
    change ((b1 :: b2 :: bs) ++ [c ++ [d]])
      with (b1 :: b2 :: (bs ++ [c ++ [d]])).
    rewrite !tight_cons_cons. intros [H12 Hrest]. split; [done|].
    by apply IH.
Qed.

(** Closing the last batch for a chunk that does not fit keeps them
    tight. *)
Lemma tight_close_last max bs c d :
  max < batch_tokens encode c + count_tokens encode (page_content d) ->
  tight encode max (bs ++ [c]) ->
  tight encode max ((bs ++ [c]) ++ [[d]]).
Proof.
  intros Hfull. induction bs as [|b1 bs IH]; [by simpl|].
  destruct bs as [|b2 bs].
  - simpl. intros [H1 _]. by destruct c.
  - change (((b1 :: b2 :: bs) ++ [c]) ++ [[d]])
      with (b1 :: b2 :: ((bs ++ [c]) ++ [[d]])).
    change ((b1 :: b2 :: bs) ++ [c]) with (b1 :: b2 :: (bs ++ [c])).
    rewrite !tight_cons_cons. intros [H12 Hrest]. split; [done|].
    by apply IH.
Qed.

Lemma tight_split max bs1 b1 d b2 bs2 :
  tight encode max (bs1 ++ b1 :: (d :: b2) :: bs2) ->
  max < batch_tokens encode b1 + count_tokens encode (page_content d).
Proof.
  induction bs1 as [|b bs1 IH]; simpl.
  - by intros [H _].
  - intros [_ H]. by apply IH.
Qed.

Lemma loop_tight max docs st :
  current_tokens st = batch_tokens encode (current_batch st) ->
  (current_batch st = [] /\ batches st = [] \/
   current_batch st <> [] /\
   tight encode max (batches st ++ [current_batch st])) ->
  tight encode max (finish (loop encode max docs st)).
Proof.
  revert st. induction docs as [|d docs IH]; intros st Hsum Hst.
  - simpl. unfold finish. destruct Hst as [[-> ->]|[Hc Ht]].
    + by rewrite bool_decide_eq_true_2.
    + by rewrite bool_decide_eq_false_2.
  - change (loop encode max (d :: docs) st)
      with (loop encode max docs (step encode max st d)).
    apply IH; unfold step.
    + destruct (_ && _)%bool; cbn [current_tokens current_batch];
        rewrite ?batch_tokens_app, ?batch_tokens_cons, ?batch_tokens_nil;
        lia.
    + destruct (max <? current_tokens st
                       + count_tokens encode (page_content d)) eqn:Hlt;
        simpl.
      * case_bool_decide as Hc; simpl.
        -- destruct Hst as [[_ ->]|[? _]]; [|done]. rewrite Hc.
           right. by split.
        -- destruct Hst as [[? _]|[_ Ht]]; [done|].
           right. split; [done|]. apply tight_close_last; [|done].
           apply Z.ltb_lt in Hlt. by rewrite <- Hsum.
      * right. split; [by destruct (current_batch st)|].
        destruct Hst as [[-> ->]|[Hc Ht]]; [by simpl|].
        by apply tight_grow_last.
Qed.

(** X1. The batches are filled greedily: wherever two batches follow one
    another, the first chunk of the second did not fit in the first. *)
Theorem create_batches_greedy docs max_tokens_per_batch bs1 b1 d b2 bs2 :
  create_batches encode docs max_tokens_per_batch
  = bs1 ++ b1 :: (d :: b2) :: bs2 ->
  max_tokens_per_batch
  < batch_tokens encode b1 + count_tokens encode (page_content d).
Proof.
  intros Hbs. apply (tight_split _ bs1 b1 d b2 bs2). rewrite <- Hbs.
  unfold create_batches. apply loop_tight; simpl; [reflexivity|].
  left. by split.
Qed.

Lemma loop_fits max rest B c :
  batch_tokens encode (c ++ rest) <= max ->
  loop encode max rest (mkLoop B c (batch_tokens encode c))
  = mkLoop B (c ++ rest) (batch_tokens encode (c ++ rest)).
Proof.
  revert c. induction rest as [|d rest IH]; intros c Hfit.
  - by rewrite app_nil_r.
  - change (loop encode max (d :: rest) ?st)
      with (loop encode max rest (step encode max st d)).
    unfold step. simpl.
    assert (Hd : batch_tokens encode c
                 + count_tokens encode (page_content d) <= max).
    { rewrite batch_tokens_app, batch_tokens_cons in Hfit.
      pose proof (batch_tokens_nonneg encode rest). lia. }
    replace (max <? _) with false by (symmetry; apply Z.ltb_ge; lia).
    simpl.
    replace (batch_tokens encode c + count_tokens encode (page_content d))
      with (batch_tokens encode (c ++ [d]))
      by (rewrite batch_tokens_app, batch_tokens_cons, batch_tokens_nil; lia).
    rewrite IH; rewrite <- app_assoc; [done|]. exact Hfit.
Qed.

(** X2. Chunks whose token counts add up to no more than the limit are
    returned as one batch. *)
Theorem create_batches_single docs max_tokens_per_batch :
  docs <> [] ->
  batch_tokens encode docs <= max_tokens_per_batch ->
  create_batches encode docs max_tokens_per_batch = [docs].
Proof.
  intros Hdocs Hfit. unfold create_batches.
  change 0 with (batch_tokens encode []).
  rewrite loop_fits by done. unfold finish. simpl.
  by rewrite bool_decide_eq_false_2.
Qed.

Lemma total_tokens_concat bs :
  total_tokens encode bs = batch_tokens encode (concat bs).
Proof.
  induction bs as [|b bs IH]; [done|].
  change (total_tokens encode (b :: bs))
    with (batch_tokens encode b + total_tokens encode bs).
  change (concat (b :: bs)) with (b ++ concat bs).
  by rewrite batch_tokens_app, IH.
Qed.

Lemma length_concat_nonempty {A} (bs : list (list A)) :
  Forall (fun b => b <> []) bs -> (length bs <= length (concat bs))%nat.
Proof.
  induction 1 as [|b bs Hb _ IH]; simpl; [done|].
  rewrite length_app. destruct b; [done|]. simpl. lia.
Qed.

(** X3. There are never more batches than chunks, and the token sums of
    the batches add up to the token count of the input. *)
Theorem create_batches_counts docs max_tokens_per_batch :
  (length (create_batches encode docs max_tokens_per_batch)
   <= length docs)%nat /\
  total_tokens encode (create_batches encode docs max_tokens_per_batch)
  = batch_tokens encode docs.
Proof.
  split.
  - rewrite <- (create_batches_flatten encode docs max_tokens_per_batch) at 2.
    apply length_concat_nonempty, create_batches_nonempty.
  - by rewrite total_tokens_concat, create_batches_flatten.
Qed.

End BatcherFurther.

Section LimiterFurther.
Import Limiter.

Lemma wait_if_needed_returns clock self :
  1 <= max_requests self ->
  exists clock',
    wait_if_needed clock self
    = Ok (clock', mkLimiter (max_requests self) (window_seconds self)
            (filter (fun req_time => clock - req_time < window_seconds self)
                    (requests self) ++ [clock])) /\
    clock <= clock'.
Proof.
  intros Hmax. unfold wait_if_needed.
  set (pruned := filter _ (requests self)).
  destruct (Z.of_nat (length pruned) >=? max_requests self) eqn:Hfull.
  - destruct pruned as [|oldest rest] eqn:Hpruned.
    { apply Z.geb_le in Hfull. simpl in Hfull. lia. }
    assert (Hin : oldest ∈ pruned) by (rewrite Hpruned; left).
    apply list_elem_of_filter in Hin as [Hrecent _].
    replace (0 <? window_seconds self - (clock - oldest) + 1)
      with true by (symmetry; apply Z.ltb_lt; lia).
    simpl. eexists. split; [reflexivity|lia].
  - simpl. eexists. split; [reflexivity|lia].
Qed.

(** X5. A limiter that allows at least one request never raises: the call
    returns, not before it was made, having recorded the clock read at its
    start after the timestamps still in the window.  A limiter configured
    with [max_requests <= 0] raises [IndexError] whenever no recorded
    timestamp is in the window, its first call included. *)
Theorem wait_if_needed_raises clock self :
  let pruned :=
    filter (fun req_time => clock - req_time < window_seconds self)
           (requests self) in
  (1 <= max_requests self ->
   exists clock',
     wait_if_needed clock self
     = Ok (clock', mkLimiter (max_requests self) (window_seconds self)
                             (pruned ++ [clock])) /\
     clock <= clock') /\
  (max_requests self <= 0 -> pruned = [] ->
   wait_if_needed clock self
   = Raise (IndexError "list index out of range")).
Proof.
  intros pruned. split.
  - intros Hmax. unfold wait_if_needed. fold pruned.
    destruct (Z.of_nat (length pruned) >=? max_requests self) eqn:Hfull.
    + destruct pruned as [|oldest rest] eqn:Hpruned.
      { apply Z.geb_le in Hfull. simpl in Hfull. lia. }
      assert (Hin : oldest ∈ pruned) by (rewrite Hpruned; left).
      apply list_elem_of_filter in Hin as [Hrecent _].
      replace (0 <? window_seconds self - (clock - oldest) + 1)
        with true by (symmetry; apply Z.ltb_lt; lia).
      simpl. eexists. split; [reflexivity|lia].
    + simpl. eexists. split; [reflexivity|lia].
  - intros Hmax Hempty. unfold wait_if_needed. fold pruned. rewrite Hempty.
    simpl length.
    by replace (Z.of_nat 0 >=? max_requests self)
      with true by (symmetry; apply Z.geb_le; lia).
Qed.

(** Between calls of one task: the list holds at most [max_requests]
    timestamps, or one more with the oldest already out of the window. *)
Lemma wait_if_needed_bounded R W clock0 clock reqs :
  1 <= R -> clock0 <= clock ->
  (Z.of_nat (length reqs) <= R \/
   Z.of_nat (length reqs) = R + 1 /\
   exists hd tl, reqs = hd :: tl /\ W <= clock0 - hd) ->
  exists clock' reqs',
    wait_if_needed clock (mkLimiter R W reqs)
    = Ok (clock', mkLimiter R W reqs') /\
    clock <= clock' /\
    (Z.of_nat (length reqs') <= R \/
     Z.of_nat (length reqs') = R + 1 /\
     exists hd tl, reqs' = hd :: tl /\ W <= clock' - hd).
Proof.
  intros HR Hclock Hinv. unfold wait_if_needed. simpl.
  set (pruned := filter (fun req_time => clock - req_time < W) reqs).
  assert (Hlen : Z.of_nat (length pruned) <= R).
  { destruct Hinv as [Hle|(Hlen & hd & tl & -> & Hold)].
    - pose proof (length_filter (fun req_time => clock - req_time < W) reqs).
      subst pruned. lia.
    - subst pruned. rewrite filter_cons_False by lia.
      pose proof (length_filter (fun req_time => clock - req_time < W) tl).
      simpl in Hlen. lia. }
  destruct (Z.of_nat (length pruned) >=? R) eqn:Hfull.
  - apply Z.geb_le in Hfull.
    destruct pruned as [|oldest rest] eqn:Hpruned; [simpl in Hfull; lia|].
    assert (Hin : oldest ∈ pruned) by (rewrite Hpruned; left).
    apply list_elem_of_filter in Hin as [Hrecent _].
    replace (0 <? W - (clock - oldest) + 1)
      with true by (symmetry; apply Z.ltb_lt; lia).
    simpl. eexists _, _. split; [reflexivity|]. split; [lia|].
    right. split.
    + simpl in *. rewrite length_app. simpl. lia.
    + exists oldest, (rest ++ [clock]). split; [done|lia].
  - rewrite Z.geb_leb in Hfull. apply Z.leb_gt in Hfull.
    simpl. eexists _, _. split; [reflexivity|]. split; [lia|].
    left. rewrite length_app. simpl. lia.
Qed.

Lemma calls_bounded R W gaps clock0 clock reqs :
  1 <= R -> clock0 <= clock -> Forall (fun gap => 0 <= gap) gaps ->
  (Z.of_nat (length reqs) <= R \/
   Z.of_nat (length reqs) = R + 1 /\
   exists hd tl, reqs = hd :: tl /\ W <= clock0 - hd) ->
  exists sent self',
    calls gaps clock (mkLimiter R W reqs) = Ok (sent, self') /\
    length sent = length gaps /\
    max_requests self' = R /\
    Z.of_nat (length (requests self')) <= R + 1.
Proof.
  intros HR. revert clock0 clock reqs.
  induction gaps as [|gap gaps IH]; intros clock0 clock reqs Hclock Hgaps Hinv.
  - exists [], (mkLimiter R W reqs). repeat split.
    simpl. destruct Hinv as [?|[? _]]; lia.
  - apply Forall_cons in Hgaps as [Hgap Hgaps].
    destruct (wait_if_needed_bounded R W clock0 (clock + gap) reqs)
      as (clock' & reqs' & Hcall & Hlater & Hinv'); [lia..|done|].
    destruct (IH clock' clock' reqs') as (sent & self' & Hrest & ? & ? & ?);
      [lia|done|done|].
    exists (clock' :: sent), self'. simpl. rewrite Hcall. simpl.
    rewrite Hrest. simpl. repeat split; [lia|done..].
Qed.

(** X6. One task calling a fresh limiter that allows at least one request,
    however it spaces its calls: no call raises, and the limiter never
    holds more than [max_requests + 1] timestamps. *)
Theorem calls_record_at_most_one_extra R W gaps clock :
  1 <= R -> Forall (fun gap => 0 <= gap) gaps ->
  exists sent self',
    calls gaps clock (mkLimiter R W []) = Ok (sent, self') /\
    length sent = length gaps /\
    max_requests self' = R /\
    Z.of_nat (length (requests self')) <= R + 1.
Proof.
  intros HR Hgaps. apply (calls_bounded R W gaps clock clock []); try done.
  left. simpl. lia.
Qed.

End LimiterFurther.

Section GatewayFurther.
Import Json Gateway.

(** The loop only goes round with attempts left, after sleeping
    [2 ^ attempt] seconds or twice as long. *)
Lemma iteration_continue max_retries attempt r wait_time :
  iteration max_retries attempt r = Continue wait_time ->
  attempt < max_retries - 1 /\
  (wait_time = 2 ^ attempt * 2 \/ wait_time = 2 ^ attempt * 1).
Proof.
  destruct r as [status data error_text|e].
  - destruct (decide (status = 200)) as [->|H200].
    { rewrite iteration_200. by destruct (extract data). }
    unfold iteration, try_block, res_bind.
    rewrite (proj2 (Z.eqb_neq status 200)) by done. intros Hit.
    destruct (attempt <? max_retries - 1) eqn:Hleft.
    + apply Z.ltb_lt in Hleft. split; [done|].
      repeat case_match; simplify_eq; auto.
    + repeat case_match; simplify_eq.
  - unfold iteration, try_block. intros Hit.
    destruct (attempt <? max_retries - 1) eqn:Hleft.
    + apply Z.ltb_lt in Hleft. split; [done|].
      repeat case_match; simplify_eq; auto.
    + repeat case_match; simplify_eq.
Qed.

(** The loop only returns what a 200 holds as the text of its first
    part. *)
Lemma iteration_return max_retries attempt r t :
  iteration max_retries attempt r = Return t ->
  exists data error_text,
    r = Response 200 data error_text /\ first_text data = Some t.
Proof.
  destruct r as [status data error_text|e].
  - destruct (decide (status = 200)) as [->|H200].
    { rewrite iteration_200.
      destruct (extract data) as [t'|e] eqn:Hextract; [|done].
      intros [= ->]. exists data, error_text. split; [done|].
      by apply extract_text. }
    unfold iteration, try_block, res_bind.
    rewrite (proj2 (Z.eqb_neq status 200)) by done. intros Hit.
    repeat case_match; simplify_eq.
  - unfold iteration, try_block. intros Hit.
    repeat case_match; simplify_eq.
Qed.

Lemma sum_snoc (l : list Z) (w : Z) :
  foldr Z.add 0 (l ++ [w]) = foldr Z.add 0 l + w.
Proof. induction l as [|x l IH]; simpl; lia. Qed.

(** The shape of every run of the loop that starts with attempts left. *)
Lemma attempts_loop_shape server max_retries remaining attempt slept :
  Z.of_nat attempt + Z.of_nat remaining = max_retries ->
  (1 <= remaining)%nat ->
  let call := attempts_loop server max_retries remaining attempt slept in
  (forall v, result call = Ok v ->
     exists data error_text,
       server (pred (attempts call)) = Response 200 data error_text /\
       first_text data = Some v) /\
  (attempt < attempts call <= attempt + remaining)%nat /\
  (length (sleeps call) + S attempt = length slept + attempts call)%nat /\
  foldr Z.add 0 (sleeps call)
  <= foldr Z.add 0 slept + 2 ^ max_retries - 2 ^ (Z.of_nat attempt + 1).
Proof.
  revert attempt slept.
  induction remaining as [|remaining IH]; intros attempt slept Hmax Hpos;
    [lia|].
  assert (Hpow : 2 ^ (Z.of_nat attempt + 1) <= 2 ^ max_retries)
    by (apply Z.pow_le_mono_r; lia).
  cbn [attempts_loop].
  destruct (iteration max_retries (Z.of_nat attempt) (server attempt))
    as [t|wait_time|e] eqn:Hit; simpl.
  - repeat split; try done; try lia.
    intros v [= <-]. by eapply iteration_return.
  - apply iteration_continue in Hit as [Hleft Hwait].
    destruct (IH (S attempt) (slept ++ [wait_time]))
      as (Hres & Hatt & Hlen & Hsum); [lia..|].
    repeat split; try done; try lia.
    + rewrite length_app in Hlen. simpl in Hlen. lia.
    + rewrite sum_snoc in Hsum.
      replace (Z.of_nat (S attempt) + 1)
        with (Z.succ (Z.of_nat attempt + 1)) in Hsum by lia.
      rewrite Z.pow_succ_r in Hsum by lia.
      rewrite Z.pow_add_r, Z.pow_1_r in * by lia.
      assert (0 < 2 ^ Z.of_nat attempt) by (apply Z.pow_pos_nonneg; lia).
      lia.
  - repeat split; try done; lia.
Qed.

(** X7. A call posts at least one and at most [max_retries] requests and
    sleeps between requests only (one sleep fewer than requests).  It
    never leaves the loop without returning or raising: a value it
    returns is what the 200 met by its last request holds as the text of
    the first part of its first candidate, whatever that is (a string, a
    [null], a list).  With [max_retries <= 0] it posts nothing and
    returns [None]. *)
Theorem call_attempts_bounded server max_retries :
  let call := call_gemini_api_with_retry server max_retries in
  (1 <= max_retries ->
   (1 <= attempts call)%nat /\
   Z.of_nat (attempts call) <= max_retries /\
   S (length (sleeps call)) = attempts call /\
   forall v, result call = Ok v ->
     exists data error_text,
       server (pred (attempts call)) = Response 200 data error_text /\
       first_text data = Some v) /\
  (max_retries <= 0 -> call = mkTrace (Ok JNull) 0 []).
Proof.
  unfold call_gemini_api_with_retry. split.
  - intros Hmax.
    destruct (attempts_loop_shape server max_retries (Z.to_nat max_retries)
                0 []) as (Hres & Hatt & Hlen & _); [lia..|].
    repeat split; try done; simpl in *; lia.
  - intros Hmax. by replace (Z.to_nat max_retries) with 0%nat by lia.
Qed.

(** X11. The sleeps of one call add up to at most [2 ^ max_retries - 2]
    seconds (6 seconds with the default of three attempts). *)
Theorem call_backoff_bounded server max_retries :
  1 <= max_retries ->
  foldr Z.add 0 (sleeps (call_gemini_api_with_retry server max_retries))
  <= 2 ^ max_retries - 2.
Proof.
  intros Hmax. unfold call_gemini_api_with_retry.
  destruct (attempts_loop_shape server max_retries (Z.to_nat max_retries)
              0 []) as (_ & _ & _ & Hsum); [lia..|].
  simpl in Hsum. lia.
Qed.

Lemma iteration_429_last max_retries attempt data error_text :
  max_retries - 1 <= attempt ->
  iteration max_retries attempt (Response 429 data error_text)
  = Reraise (Exception "Rate limit exceeded - please try again later").
Proof.
  intros Hlast. unfold iteration, try_block.
  cbn -[PyStr.contains PyStr.lower Z.ltb Z.sub Z.pow Z.mul].
  by replace (attempt <? max_retries - 1)
    with false by (symmetry; apply Z.ltb_ge; lia).
Qed.

Lemma iteration_timeout max_retries attempt :
  iteration max_retries attempt (Raised TimeoutError)
  = if attempt <? max_retries - 1 then Continue (2 ^ attempt * 1)
    else Reraise (Exception "Request timeout - please try again").
Proof. reflexivity. Qed.

Lemma attempts_loop_S server max_retries remaining attempt slept :
  attempts_loop server max_retries (S remaining) attempt slept
  = match iteration max_retries (Z.of_nat attempt) (server attempt) with
    | Return t => mkTrace (Ok t) (S attempt) slept
    | Continue wait_time =>
        attempts_loop server max_retries remaining (S attempt)
                      (slept ++ [wait_time])
    | Reraise e => mkTrace (Raise e) (S attempt) slept
    end.
Proof. reflexivity. Qed.

(** A server that fails the same retryable way on every request: the
    loop sleeps after every attempt but the last, then gives up. *)
Lemma attempts_loop_exhausted server max_retries (base : Z) e
    remaining attempt slept :
  (forall n,
     iteration max_retries (Z.of_nat n) (server n)
     = if Z.of_nat n <? max_retries - 1
       then Continue (2 ^ Z.of_nat n * base) else Reraise e) ->
  Z.of_nat attempt + Z.of_nat (S remaining) = max_retries ->
  attempts_loop server max_retries (S remaining) attempt slept
  = mkTrace (Raise e) (attempt + S remaining)
            (slept ++ map (fun i => 2 ^ Z.of_nat i * base)
                          (seq attempt remaining)).
Proof.
  intros Hserver. revert attempt slept.
  induction remaining as [|remaining IH]; intros attempt slept Hmax;
    rewrite attempts_loop_S, Hserver.
  - replace (Z.of_nat attempt <? max_retries - 1)
      with false by (symmetry; apply Z.ltb_ge; lia).
    simpl. rewrite app_nil_r. f_equal. lia.
  - replace (Z.of_nat attempt <? max_retries - 1)
      with true by (symmetry; apply Z.ltb_lt; lia).
    rewrite IH by lia. simpl. rewrite <- app_assoc. simpl. f_equal. lia.
Qed.

(** X8. When every request meets HTTP 429, the call posts [max_retries]
    requests, sleeping 2, 4, 8, ... seconds in between, and raises the
    rate-limit error. *)
Theorem call_rate_limited_throughout server max_retries :
  1 <= max_retries ->
  (forall n, exists data error_text,
     server n = Response 429 data error_text) ->
  call_gemini_api_with_retry server max_retries
  = mkTrace
      (Raise (Exception "Rate limit exceeded - please try again later"))
      (Z.to_nat max_retries)
      (map (fun i => 2 ^ Z.of_nat i * 2)
           (seq 0 (Z.to_nat max_retries - 1))).
Proof.
  intros Hmax Hserver. unfold call_gemini_api_with_retry.
  destruct (Z.to_nat max_retries) as [|remaining] eqn:Hn; [lia|].
  rewrite (attempts_loop_exhausted server max_retries 2
             (Exception "Rate limit exceeded - please try again later")).
  - simpl. by rewrite Nat.sub_0_r.
  - intros n. destruct (Hserver n) as (data & error_text & ->).
    destruct (Z.of_nat n <? max_retries - 1) eqn:Hleft.
    + apply iteration_429. by apply Z.ltb_lt.
    + apply iteration_429_last. by apply Z.ltb_ge.
  - lia.
Qed.

(** X9. When every request times out, the call posts [max_retries]
    requests, sleeping 1, 2, 4, ... seconds in between, and raises the
    timeout error. *)
Theorem call_timed_out_throughout server max_retries :
  1 <= max_retries ->
  (forall n, server n = Raised TimeoutError) ->
  call_gemini_api_with_retry server max_retries
  = mkTrace (Raise (Exception "Request timeout - please try again"))
            (Z.to_nat max_retries)
            (map (fun i => 2 ^ Z.of_nat i * 1)
                 (seq 0 (Z.to_nat max_retries - 1))).
Proof.
  intros Hmax Hserver. unfold call_gemini_api_with_retry.
  destruct (Z.to_nat max_retries) as [|remaining] eqn:Hn; [lia|].
  rewrite (attempts_loop_exhausted server max_retries 1
             (Exception "Request timeout - please try again")).
  - simpl. by rewrite Nat.sub_0_r.
  - intros n. rewrite Hserver. apply iteration_timeout.
  - lia.
Qed.

End GatewayFurther.

Section StringFacts.

Lemma append_cons c (s t : string) : String c s +:+ t = String c (s +:+ t).
Proof. reflexivity. Qed.

Lemma append_nil (t : string) : "" +:+ t = t.
Proof. reflexivity. Qed.

Lemma lower_append (s t : string) :
  PyStr.lower (s +:+ t) = PyStr.lower s +:+ PyStr.lower t.
Proof.
  induction s as [|c s IH]; [done|].
  rewrite append_cons. cbn [PyStr.lower]. by rewrite IH, append_cons.
Qed.

Lemma contains_cons sub c s :
  PyStr.contains sub s = true -> PyStr.contains sub (String c s) = true.
Proof.
  intros Hs. cbn [PyStr.contains].
  by destruct (PyStr.startswith sub (String c s)).
Qed.

(** [sub in t] implies [sub in s + t]. *)
Lemma contains_append_r sub (s t : string) :
  PyStr.contains sub t = true -> PyStr.contains sub (s +:+ t) = true.
Proof.
  intros Ht. induction s as [|c s IH]; [done|].
  rewrite append_cons. by apply contains_cons.
Qed.

Lemma endswith_cons suf c s :
  PyStr.endswith suf s = true -> PyStr.endswith suf (String c s) = true.
Proof.
  intros Hs. cbn [PyStr.endswith].
  by destruct (String.eqb (String c s) suf).
Qed.

(** [t.endswith(suf)] implies [(s + t).endswith(suf)]. *)
Lemma endswith_append suf (s t : string) :
  PyStr.endswith suf t = true -> PyStr.endswith suf (s +:+ t) = true.
Proof.
  intros Ht. induction s as [|c s IH]; [done|].
  rewrite append_cons. by apply endswith_cons.
Qed.

Lemma endswith_path_join suf a b :
  PyStr.endswith suf b = true ->
  PyStr.endswith suf (PyStr.path_join a b) = true.
Proof.
  intros Hb. unfold PyStr.path_join.
  destruct (PyStr.startswith "/" b); [done|].
  destruct (_ || _)%bool; repeat apply endswith_append; done.
Qed.

End StringFacts.

Section GatewayErrors.
Import Gateway.

(** X10. A response with a status other than 200, 429 and 403 whose body
    mentions "rate limit" (in any letter case) is retried like a 429 while
    attempts remain; on the last attempt it is raised as
    ["API error <status>: <body>"]. *)
Theorem error_body_rate_limit max_retries attempt status data error_text :
  status <> 200 -> status <> 429 -> status <> 403 ->
  PyStr.contains "rate limit" (PyStr.lower error_text) = true ->
  (attempt < max_retries - 1 ->
   iteration max_retries attempt (Response status data error_text)
   = Continue (2 ^ attempt * 2)) /\
  (max_retries - 1 <= attempt ->
   iteration max_retries attempt (Response status data error_text)
   = Reraise (Exception ("API error " +:+ PyStr.of_Z status +:+ ": "
                         +:+ error_text))).
Proof.
  intros H200 H429 H403 Hbody.
  assert (Hmsg : PyStr.contains "rate limit"
            (PyStr.lower ("API error " +:+ PyStr.of_Z status +:+ ": "
                          +:+ error_text)) = true).
  { rewrite !lower_append. by do 3 apply contains_append_r. }
  unfold iteration, try_block.
  rewrite (proj2 (Z.eqb_neq status 200)), (proj2 (Z.eqb_neq status 429)),
    (proj2 (Z.eqb_neq status 403)) by done.
  cbn [str]. rewrite Hmsg, andb_true_r. split; intros Hleft.
  - by replace (attempt <? max_retries - 1)
      with true by (symmetry; apply Z.ltb_lt; lia).
  - by replace (attempt <? max_retries - 1)
      with false by (symmetry; apply Z.ltb_ge; lia).
Qed.

End GatewayErrors.

Section StringCancel.

Lemma length_append (s t : string) :
  String.length (s +:+ t) = (String.length s + String.length t)%nat.
Proof.
  induction s as [|c s IH]; [done|].
  rewrite append_cons. simpl. by rewrite IH.
Qed.

(** [s + t = s' + t] only when [s = s']. *)
Lemma append_inj_r (s s' t : string) : s +:+ t = s' +:+ t -> s = s'.
Proof.
  revert s'. induction s as [|c s IH]; intros [|c' s'] Heq.
  - done.
  - apply (f_equal String.length) in Heq.
    rewrite append_nil, append_cons in Heq. simpl in Heq.
    rewrite length_append in Heq. lia.
  - apply (f_equal String.length) in Heq.
    rewrite append_nil, append_cons in Heq. simpl in Heq.
    rewrite length_append in Heq. lia.
  - rewrite !append_cons in Heq. injection Heq as -> Heq.
    f_equal. by apply IH.
Qed.

End StringCancel.

Section StoreFurther.
Import Store.
Context {Vec : Type}.
Variable embeddings_error : option exn.
Variable from_documents : list Document -> res (@vectorstore Vec).
Variable add_documents :
  @vectorstore Vec -> list Document -> res (@vectorstore Vec).
Variable save_failure :
  @vectorstore Vec -> string -> option (@persisted Vec) ->
  option (exn * option (@persisted Vec)).
Variable similarity_search : @vectorstore Vec -> string -> res (list Document).

(** [build_vectordb] on a directory without a store. *)
Lemma build_vectordb_fresh (fs : gmap string (@persisted Vec)) chunks
    directory_name :
  fs !! (directory_name +:+ "_vectorstore") = None ->
  build_vectordb embeddings_error from_documents add_documents save_failure
                 fs chunks directory_name
  = match embeddings_error, from_documents chunks with
    | Some e, _ | None, Raise e => mkOutcome (Raise e) fs []
    | None, Ok vs =>
        match save_failure vs (directory_name +:+ "_vectorstore") None with
        | None =>
            mkOutcome (Ok vs)
              (<[directory_name +:+ "_vectorstore" := mkPersisted vs None]> fs)
              []
        | Some (e, Some remains) =>
            mkOutcome (Raise e)
              (<[directory_name +:+ "_vectorstore" := remains]> fs) []
        | Some (e, None) => mkOutcome (Raise e) fs []
        end
    end.
Proof.
  intros Hnone. unfold build_vectordb, save_local.
  destruct embeddings_error as [e|]; [done|]. rewrite Hnone.
  destruct (from_documents chunks) as [vs|e]; [|done].
  destruct (save_failure vs _ None) as [[e [remains|]]|]; simpl; try done.
  by rewrite delete_id.
Qed.

(** A store is returned only after it was saved, and only with the
    embedding model at hand. *)
Lemma build_vectordb_saves (fs : gmap string (@persisted Vec)) chunks
    directory_name vs :
  returned (build_vectordb embeddings_error from_documents add_documents
              save_failure fs chunks directory_name) = Ok vs ->
  embeddings_error = None /\
  disk (build_vectordb embeddings_error from_documents add_documents
          save_failure fs chunks directory_name)
  = <[directory_name +:+ "_vectorstore" := mkPersisted vs None]> fs.
Proof.
  assert (Hsave : forall vs' warned,
    returned (let '(saved, fs') :=
                save_local save_failure vs'
                           (directory_name +:+ "_vectorstore") fs in
              mkOutcome (res_bind saved (fun _ => Ok vs')) fs' warned)
    = Ok vs ->
    None = @None exn /\
    disk (let '(saved, fs') :=
            save_local save_failure vs'
                       (directory_name +:+ "_vectorstore") fs in
          mkOutcome (res_bind saved (fun _ => Ok vs')) fs' warned)
    = <[directory_name +:+ "_vectorstore" := mkPersisted vs None]> fs).
  { intros vs' warned. unfold save_local.
    destruct (save_failure vs' _ _) as [[e [remains|]]|]; simpl; try done.
    by intros [= ->]. }
  unfold build_vectordb. destruct embeddings_error as [e|]; [done|].
  destruct (fs !! (directory_name +:+ "_vectorstore")) as [p|].
  - destruct (res_bind (load_local p) _) as [vs'|e]; [by apply Hsave|].
    destruct (from_documents chunks); [by apply Hsave|done].
  - destruct (from_documents chunks); [by apply Hsave|done].
Qed.

(** X12. What [build_vectordb] saved is what [get_retriever] loads: after
    a call that returned, the retriever of that directory is the store
    returned (even if the directory could not be loaded before), and the
    retriever of every other directory is what it was. *)
Theorem build_then_get_retriever (fs : gmap string (@persisted Vec)) chunks
    directory_name vs :
  returned (build_vectordb embeddings_error from_documents add_documents
              save_failure fs chunks directory_name) = Ok vs ->
  let fs' :=
    disk (build_vectordb embeddings_error from_documents add_documents
            save_failure fs chunks directory_name) in
  get_retriever embeddings_error fs' directory_name = Ok (Some vs) /\
  (forall other, other <> directory_name ->
                 get_retriever embeddings_error fs' other
                 = get_retriever embeddings_error fs other).
Proof.
  intros Hret fs'. subst fs'.
  destruct (build_vectordb_saves _ _ _ _ Hret) as [Hemb ->].
  unfold get_retriever. rewrite Hemb. split.
  - by rewrite lookup_insert_eq.
  - intros other Hother. rewrite lookup_insert_ne; [done|].
    intros Heq. apply Hother. symmetry. by eapply append_inj_r.
Qed.

(** X13. With both stores on disk and loadable, the combined retriever
    returns the documents found in the RAG store followed by the ones
    found in the CAG store; when either search raises it returns the
    empty list instead of raising.  With only the RAG store loadable, the
    retriever is the RAG retriever itself, whose exceptions propagate. *)
Theorem combined_retriever_results (fs : gmap string (@persisted Vec))
    rag query :
  get_retriever embeddings_error fs "rag_docs" = Ok (Some rag) ->
  (forall cag,
     get_retriever embeddings_error fs "cag_docs" = Ok (Some cag) ->
     exists r,
       get_combined_retriever embeddings_error fs = Some r /\
       get_relevant_documents similarity_search r query
       = match similarity_search rag query,
               similarity_search cag query with
         | Ok rag_docs, Ok cag_docs => Ok (rag_docs ++ cag_docs)
         | _, _ => Ok []
         end) /\
  (get_retriever embeddings_error fs "cag_docs" = Ok None ->
   exists r,
     get_combined_retriever embeddings_error fs = Some r /\
     get_relevant_documents similarity_search r query
     = similarity_search rag query).
Proof.
  intros Hrag. split.
  - intros cag Hcag. unfold get_combined_retriever. rewrite Hrag, Hcag.
    eexists. split; [reflexivity|]. simpl.
    by destruct (similarity_search rag query),
                (similarity_search cag query).
  - intros Hcag. unfold get_combined_retriever. rewrite Hrag, Hcag.
    eexists. split; reflexivity.
Qed.

End StoreFurther.

Section RebuildFurther.
Import Rebuild.
Variables PyPDFLoader CSVLoader UnstructuredExcelLoader TextLoader
          : string -> res (list Document).
Variable split_documents : list Document -> list Document.
Context {Vec : Type}.
Variable embeddings_error : option exn.
Variable from_documents : list Document -> res (@Store.vectorstore Vec).
Variable add_documents :
  @Store.vectorstore Vec -> list Document -> res (@Store.vectorstore Vec).
Variable save_failure :
  @Store.vectorstore Vec -> string -> option (@Store.persisted Vec) ->
  option (exn * option (@Store.persisted Vec)).

Lemma clear_lookup (fs : gmap string (@Store.persisted Vec)) path :
  clear fs !! path
  = if bool_decide (path = "rag_docs_vectorstore"
                    \/ path = "cag_docs_vectorstore")
    then None else fs !! path.
Proof.
  unfold clear. case_bool_decide as Hpath.
  - destruct Hpath as [-> | ->].
    + rewrite lookup_delete_ne by done. apply lookup_delete_eq.
    + apply lookup_delete_eq.
  - rewrite !lookup_delete_ne; [done|naive_solver..].
Qed.

(** One directory, rebuilt into a disk that has no store for it: the
    loop goes on with the store rebuilt, or ends with an exception. *)
Lemma rebuild_one doc_type rest dirs (fs : gmap string (@Store.persisted Vec)) :
  fs !! (doc_type +:+ "_vectorstore") = None ->
  (exists fs1,
     rebuild PyPDFLoader CSVLoader UnstructuredExcelLoader TextLoader
       split_documents embeddings_error from_documents add_documents
       save_failure
       (doc_type :: rest) dirs fs
     = rebuild PyPDFLoader CSVLoader UnstructuredExcelLoader TextLoader
         split_documents embeddings_error from_documents add_documents
       save_failure
         rest dirs fs1 /\
     rebuilt_from PyPDFLoader CSVLoader UnstructuredExcelLoader TextLoader
       split_documents from_documents (dirs !! doc_type)
       (fs1 !! (doc_type +:+ "_vectorstore")) /\
     forall path, path <> doc_type +:+ "_vectorstore" ->
                  fs1 !! path = fs !! path) \/
  (exists e fs1,
     rebuild PyPDFLoader CSVLoader UnstructuredExcelLoader TextLoader
       split_documents embeddings_error from_documents add_documents
       save_failure
       (doc_type :: rest) dirs fs
     = (Raise e, fs1) /\
     left_by_failure PyPDFLoader CSVLoader UnstructuredExcelLoader TextLoader
       split_documents embeddings_error from_documents save_failure doc_type
       (dirs !! doc_type) (fs1 !! (doc_type +:+ "_vectorstore")) /\
     forall path, path <> doc_type +:+ "_vectorstore" ->
                  fs1 !! path = fs !! path).
Proof.
  intros Hnone. cbn [rebuild].
  destruct (dirs !! doc_type) as [entries|] eqn:Hdir.
  - case_bool_decide as Hchunks.
    + left. exists fs. split; [done|]. split; [|done].
      unfold rebuilt_from. simpl. by rewrite bool_decide_eq_true_2.
    + rewrite (build_vectordb_fresh embeddings_error from_documents
                 add_documents save_failure fs _ doc_type Hnone).
      unfold left_by_failure, rebuilt_from. simpl.
      rewrite bool_decide_eq_false_2 by done.
      destruct embeddings_error as [e|].
      { right. eexists _, _. split; [reflexivity|]. by split. }
      destruct (from_documents _) as [vs|e] eqn:Hvs; simpl.
      * destruct (save_failure vs _ None) as [[e [remains|]]|] eqn:Hsave;
          simpl.
        -- right. eexists _, _. split; [reflexivity|]. split.
           ++ split; [done|]. exists e. by rewrite lookup_insert_eq.
           ++ intros path Hpath. by rewrite lookup_insert_ne.
        -- right. eexists _, _. split; [reflexivity|]. split; [|done].
           split; [done|]. exists e. by rewrite Hnone.
        -- left. eexists. split; [reflexivity|]. split.
           ++ exists vs. split; [done|]. apply lookup_insert_eq.
           ++ intros path Hpath. by rewrite lookup_insert_ne.
      * right. eexists _, _. split; [reflexivity|]. by split.
  - left. exists fs. split; [done|]. split; [|done].
    unfold rebuilt_from. by simpl.
Qed.

(** X14. [clear_and_rebuild_vectorstores] leaves every other directory
    alone.  When it returns, each of the two stores holds exactly what
    [FAISS.from_documents] makes of the chunks of the files now in its
    document directory, or is absent when there is none: nothing that was
    stored before survives, readable or not.  When it raises, either the
    RAG directory failed (its store is absent, or what a failed save
    left) and the CAG store is gone, or the RAG store is rebuilt and the
    CAG directory failed. *)
Theorem clear_and_rebuild_from_documents (w : @world Vec) :
  let out :=
    clear_and_rebuild_vectorstores PyPDFLoader CSVLoader
      UnstructuredExcelLoader TextLoader split_documents embeddings_error
      from_documents add_documents save_failure w in
  let rebuilt doc_type :=
    rebuilt_from PyPDFLoader CSVLoader UnstructuredExcelLoader TextLoader
      split_documents from_documents (doc_dirs w !! doc_type)
      (out.2 !! (doc_type +:+ "_vectorstore")) in
  let failed doc_type :=
    left_by_failure PyPDFLoader CSVLoader UnstructuredExcelLoader TextLoader
      split_documents embeddings_error from_documents save_failure doc_type
      (doc_dirs w !! doc_type) (out.2 !! (doc_type +:+ "_vectorstore")) in
  (forall path,
     path <> "rag_docs_vectorstore" -> path <> "cag_docs_vectorstore" ->
     out.2 !! path = disk w !! path) /\
  match out.1 with
  | Ok _ => rebuilt "rag_docs" /\ rebuilt "cag_docs"
  | Raise _ =>
      (failed "rag_docs" /\ out.2 !! "cag_docs_vectorstore" = None) \/
      (rebuilt "rag_docs" /\ failed "cag_docs")
  end.
Proof.
  intros out rebuilt failed. subst out rebuilt failed.
  unfold clear_and_rebuild_vectorstores.
  assert (Hrag0 : clear (disk w) !! ("rag_docs" +:+ "_vectorstore") = None).
  { rewrite clear_lookup. by rewrite bool_decide_eq_true_2 by (by left). }
  assert (Hcag0 : clear (disk w) !! ("cag_docs" +:+ "_vectorstore") = None).
  { rewrite clear_lookup. by rewrite bool_decide_eq_true_2 by (by right). }
  assert (Hother : forall path,
            path <> "rag_docs_vectorstore" ->
            path <> "cag_docs_vectorstore" ->
            clear (disk w) !! path = disk w !! path).
  { intros path H1 H2. rewrite clear_lookup.
    rewrite bool_decide_eq_false_2; [done|]. by intros [?|?]. }
  destruct (rebuild_one "rag_docs" ["cag_docs"] (doc_dirs w) _ Hrag0)
    as [(fs1 & Heq1 & Hrag1 & Hframe1)|(e & fs1 & Heq1 & Hrag1 & Hframe1)];
    rewrite Heq1.
  2: { simpl. split.
       - intros path H1 H2. rewrite Hframe1 by done. by apply Hother.
       - left. split; [done|]. by rewrite Hframe1. }
  assert (Hcag1 : fs1 !! ("cag_docs" +:+ "_vectorstore") = None)
    by (by rewrite Hframe1).
  destruct (rebuild_one "cag_docs" [] (doc_dirs w) _ Hcag1)
    as [(fs2 & Heq2 & Hcag2 & Hframe2)|(e & fs2 & Heq2 & Hcag2 & Hframe2)];
    rewrite Heq2; simpl.
  - split.
    + intros path H1 H2. rewrite Hframe2, Hframe1 by done. by apply Hother.
    + split; [|done]. by rewrite Hframe2.
  - split.
    + intros path H1 H2. rewrite Hframe2, Hframe1 by done. by apply Hother.
    + right. split; [|done]. by rewrite Hframe2.
Qed.

End RebuildFurther.

Section AuditFurther.
Import Audit.
Context {Val : Type}.

(** X15. [get_audit_logs] shows a suffix of the audit log and counts the
    whole log: the last [limit] entries (all of them when there are fewer)
    for a positive [limit]; the whole log, not nothing, for [limit = 0];
    and for a negative [limit] everything but the first [-limit]
    entries. *)
Theorem get_audit_logs_window (limit : Z) (audit_logs : list (@AuditLog Val)) :
  let answer := get_audit_logs limit false audit_logs in
  total_count answer = length audit_logs /\
  (0 < limit ->
   logs answer
   = inl (drop (length audit_logs - Z.to_nat limit) audit_logs)) /\
  (limit = 0 -> logs answer = inl audit_logs) /\
  (limit < 0 -> logs answer = inl (drop (Z.to_nat (- limit)) audit_logs)).
Proof.
  unfold get_audit_logs, PyList.slice_from, PyList.clamp. simpl.
  split; [done|]. repeat split.
  - intros Hpos.
    replace (- limit <? 0) with true by (symmetry; apply Z.ltb_lt; lia).
    do 2 f_equal. lia.
  - intros ->. change (- 0 <? 0) with false. cbv iota.
    by replace (Z.to_nat ((- 0) `min` Z.of_nat (length audit_logs)))
      with 0%nat by lia.
  - intros Hneg.
    replace (- limit <? 0) with false by (symmetry; apply Z.ltb_ge; lia).
    f_equal.
    destruct (Z_le_gt_dec (- limit) (Z.of_nat (length audit_logs))).
    + f_equal. lia.
    + rewrite !drop_ge; [done|lia..].
Qed.

(** X16. The mobile view shows the same entries in the same order, each
    with the details cut down to the keys ["model"], ["error"] and
    ["mobile_optimized"], whose values it keeps. *)
Theorem get_audit_logs_mobile (limit : Z) (audit_logs : list (@AuditLog Val)) :
  exists shown,
    logs (get_audit_logs limit false audit_logs) = inl shown /\
    logs (get_audit_logs limit true audit_logs) = inr (map mobile_view shown) /\
    forall (log : @AuditLog Val) (key : string),
      m_action (mobile_view log) = action log /\
      m_success (mobile_view log) = success log /\
      m_details (mobile_view log) !! key
      = if bool_decide (key ∈ ["model"; "error"; "mobile_optimized"])
        then details log !! key else None.
Proof.
  eexists. split; [reflexivity|]. split; [reflexivity|].
  intros log key. split; [done|]. split; [done|].
  unfold mobile_view. simpl.
  destruct (details log !! key) as [v|] eqn:Hkey.
  - case_bool_decide as Hallowed.
    + by apply map_lookup_filter_Some_2.
    + apply map_lookup_filter_None_2. right. intros v' Hv'. done.
  - case_bool_decide; apply map_lookup_filter_None_2; by left.
Qed.

End AuditFurther.

Section LlmCacheFurther.
Import LlmCache.
Variable DEFAULT_MODEL : string.
Context {LLM : Type}.
Variable OllamaLLM : string -> res LLM.

(** X17. A model that [get_llm_for_model] returned is cached under the
    name asked for: asking again returns the same instance, constructs
    nothing and logs nothing; the entries of the other names are not
    touched. *)
Theorem get_llm_for_model_cached model_name (st st' : @state LLM) llm :
  get_llm_for_model DEFAULT_MODEL OllamaLLM model_name st = (inl llm, st') ->
  llm_cache st' !! model_name = Some llm /\
  get_llm_for_model DEFAULT_MODEL OllamaLLM model_name st' = (inl llm, st') /\
  (forall other, other <> model_name ->
                 llm_cache st' !! other = llm_cache st !! other).
Proof.
  unfold get_llm_for_model at 1.
  destruct (llm_cache st !! model_name) as [cached|] eqn:Hcache.
  - intros [= <- <-]. unfold get_llm_for_model. by rewrite Hcache.
  - assert (Hhit : forall logged,
              llm_cache (mkState (<[model_name := llm]> (llm_cache st)) logged)
                !! model_name = Some llm /\
              get_llm_for_model DEFAULT_MODEL OllamaLLM model_name
                (mkState (<[model_name := llm]> (llm_cache st)) logged)
              = (inl llm,
                 mkState (<[model_name := llm]> (llm_cache st)) logged) /\
              (forall other, other <> model_name ->
                 llm_cache
                   (mkState (<[model_name := llm]> (llm_cache st)) logged)
                   !! other = llm_cache st !! other)).
    { intros logged. unfold get_llm_for_model. simpl.
      rewrite lookup_insert_eq. repeat split.
      intros other Hother. by rewrite lookup_insert_ne. }
    destruct (OllamaLLM model_name) as [built|e].
    + intros [= <- <-]. apply Hhit.
    + case_bool_decide; [|done].
      destruct (OllamaLLM DEFAULT_MODEL) as [fallback|e']; [|done].
      intros [= <- <-]. apply Hhit.
Qed.

(** X18. When the constructor raises for a model that is not cached: one
    failed initialization is logged; for a model other than the default,
    an instance of the default model is returned and cached under the name
    asked for, or, if that constructor raises too, its exception leaves
    the function as it is; for the default model itself the function
    raises the "Cannot initialize LLM" error.  A call that fails caches
    nothing. *)
Theorem get_llm_for_model_fallback model_name (st : @state LLM) e :
  llm_cache st !! model_name = None ->
  OllamaLLM model_name = Raise e ->
  let out := get_llm_for_model DEFAULT_MODEL OllamaLLM model_name st in
  audit_logs out.2 = audit_logs st ++ [("llm_initialization_failed", false)] /\
  (model_name = DEFAULT_MODEL ->
   out.1 = inr (CannotInitialize (str e)) /\ llm_cache out.2 = llm_cache st) /\
  (model_name <> DEFAULT_MODEL ->
   match OllamaLLM DEFAULT_MODEL with
   | Ok fallback =>
       out.1 = inl fallback /\
       llm_cache out.2 = <[model_name := fallback]> (llm_cache st)
   | Raise e' =>
       out.1 = inr (Propagated e') /\ llm_cache out.2 = llm_cache st
   end).
Proof.
  intros Hcache Hraise out. subst out. unfold get_llm_for_model.
  rewrite Hcache, Hraise. case_bool_decide as Hdefault.
  - destruct (OllamaLLM DEFAULT_MODEL) as [fallback|e']; simpl;
      (split; [done|]); (split; [done|]); done.
  - simpl. split; [done|]. split; [done|]. intros Hne. by destruct Hdefault.
Qed.

End LlmCacheFurther.

Section ChatFurther.
Import Chat.
Variable MAX_CONTEXT_DOCS : Z.
Variable retriever : option (string -> res (list Document)).
Variable server : string -> string -> nat -> Gateway.attempt_result.
Variable validation_error : Json.json -> exn.

(** What the endpoint answers and logs once the limiter has let the
    request through and the context is there, by the result of the call
    to the API. *)
Lemma chat_after_context request st clock1 limiter1 sources context_text :
  Limiter.wait_if_needed (clock st) (rate_limiter st)
  = Ok (clock1, limiter1) ->
  get_context MAX_CONTEXT_DOCS retriever request
  = Ok (sources, context_text) ->
  forall call,
    call = Gateway.call_gemini_api_with_retry
             (server (model request)
                     (system_prompt context_text (message request))) 3 ->
    let out :=
      chat_with_gemini MAX_CONTEXT_DOCS retriever server validation_error
                       request st in
    let failure e :=
      mkResponse "" (model request) [] false (Some (friendly_error (str e))) in
    match Gateway.result call with
    | Ok (Json.JStr text) =>
        out.1 = mkResponse text (model request) sources true None /\
        audit_logs out.2 = audit_logs st ++ [("gemini_chat_success", true)]
    | Ok (Json.JList items) =>
        out.1 = failure (validation_error (Json.JList items)) /\
        audit_logs out.2
        = audit_logs st
          ++ [("gemini_chat_success", true); ("gemini_chat_error", false)]
    | Ok (Json.JDict entries) =>
        out.1 = failure (validation_error (Json.JDict entries)) /\
        audit_logs out.2
        = audit_logs st
          ++ [("gemini_chat_success", true); ("gemini_chat_error", false)]
    | Ok other =>
        out.1
        = failure (TypeError ("object of type '" +:+ Json.type_name other
                              +:+ "' has no len()")) /\
        audit_logs out.2 = audit_logs st ++ [("gemini_chat_error", false)]
    | Raise e =>
        out.1 = failure e /\
        audit_logs out.2 = audit_logs st ++ [("gemini_chat_error", false)]
    end.
Proof.
  intros Hwait Hctx call -> out failure. subst out failure.
  unfold chat_with_gemini, failed. rewrite Hwait, Hctx.
  destruct (Gateway.result _) as [[| | | | | |]|e]; simpl; try done.
  all: by rewrite <- app_assoc.
Qed.


(** X20. With a limiter that allows at least one request, every chat
    request is recorded by the limiter, with the clock read when the
    request came in, whether or not the call to the API succeeds. *)
Theorem chat_with_gemini_charges_limiter request st :
  1 <= Limiter.max_requests (rate_limiter st) ->
  let out :=
    chat_with_gemini MAX_CONTEXT_DOCS retriever server validation_error
                     request st in
  Limiter.requests (rate_limiter out.2)
  = filter (fun req_time =>
              clock st - req_time
              < Limiter.window_seconds (rate_limiter st))
           (Limiter.requests (rate_limiter st))
    ++ [clock st].
Proof.
  intros Hmax. unfold chat_with_gemini, failed.
  destruct (wait_if_needed_returns (clock st) (rate_limiter st) Hmax)
    as (clock' & -> & _).
  destruct (get_context _ _ _) as [[sources context_text]|e]; simpl; [|done].
  by destruct (Gateway.result _) as [[| | | | | |]|e].
Qed.

End ChatFurther.

Section ChatContext.
Import Chat.
Variable MAX_CONTEXT_DOCS : Z.
Variable retriever : option (string -> res (list Document)).
Variable server : string -> string -> nat -> Gateway.attempt_result.
Variable validation_error : Json.json -> exn.

Lemma add_context_sources docs sources parts :
  NoDup sources ->
  let out := fold_left add_context docs (sources, parts) in
  NoDup out.1 /\
  (length out.1 <= length sources + length docs)%nat /\
  forall s, s ∈ out.1 ->
    s ∈ sources \/
    exists d, d ∈ docs /\
      s = PyStr.basename (default "Unknown" (metadata d !! "source")).
Proof.
  revert sources parts.
  induction docs as [|d docs IH]; intros sources parts Hnodup; simpl.
  - split; [done|]. split; [lia|]. by left.
  - set (source := PyStr.basename (default "Unknown" (metadata d !! "source"))).
    case_bool_decide as Hseen.
    + destruct (IH sources
                  (parts ++ ["[" +:+ source +:+ "]: " +:+ page_content d])
                  Hnodup) as (Hnd & Hlen & Hfrom).
      split; [done|]. split; [lia|].
      intros s Hs. destruct (Hfrom s Hs) as [?|(d' & Hd' & ->)]; [by left|].
      right. exists d'. split; [by right|done].
    + destruct (IH (sources ++ [source])
                  (parts ++ ["[" +:+ source +:+ "]: " +:+ page_content d]))
        as (Hnd & Hlen & Hfrom).
      { apply NoDup_app. split; [done|]. split; [|apply NoDup_singleton].
        intros x Hx ->%list_elem_of_singleton. done. }
      split; [done|]. split; [rewrite length_app in Hlen; simpl in Hlen; lia|].
      intros s Hs.
      destruct (Hfrom s Hs) as [[?| ->%list_elem_of_singleton]%elem_of_app
                               |(d' & Hd' & ->)].
      * by left.
      * right. exists d. split; [left|done].
      * right. exists d'. split; [by right|done].
Qed.

Lemma slice_to_bound {A} (stop : Z) (l : list A) :
  0 <= stop -> (length (PyList.slice_to stop l) <= Z.to_nat stop)%nat.
Proof.
  intros Hstop. unfold PyList.slice_to, PyList.clamp.
  replace (stop <? 0) with false by (symmetry; apply Z.ltb_ge; lia).
  rewrite length_take. lia.
Qed.

Lemma slice_to_elem {A} (stop : Z) (l : list A) x :
  x ∈ PyList.slice_to stop l -> x ∈ l.
Proof.
  unfold PyList.slice_to. intros (i & Hi & _)%elem_of_take.
  by eapply list_elem_of_lookup_2.
Qed.

Lemma get_context_sources request sources context_text :
  get_context MAX_CONTEXT_DOCS retriever request = Ok (sources, context_text) ->
  NoDup sources /\
  (0 <= MAX_CONTEXT_DOCS -> (length sources <= Z.to_nat MAX_CONTEXT_DOCS)%nat) /\
  forall s, s ∈ sources ->
    exists get_relevant_documents docs d,
      retriever = Some get_relevant_documents /\
      get_relevant_documents (message request) = Ok docs /\
      d ∈ docs /\
      s = PyStr.basename (default "Unknown" (metadata d !! "source")).
Proof.
  unfold get_context.
  assert (Hempty : NoDup (@nil string) /\
            (0 <= MAX_CONTEXT_DOCS ->
             (length (@nil string) <= Z.to_nat MAX_CONTEXT_DOCS)%nat) /\
            forall s, s ∈ @nil string ->
              exists get_relevant_documents docs d,
                retriever = Some get_relevant_documents /\
                get_relevant_documents (message request) = Ok docs /\
                d ∈ docs /\
                s = PyStr.basename
                      (default "Unknown" (metadata d !! "source"))).
  { split; [constructor|]. split; [simpl; lia|]. by intros s ?%elem_of_nil. }
  destruct (_ && _)%bool; [|by intros [= <- <-]].
  destruct retriever as [get_relevant_documents|]; [|by intros [= <- <-]].
  destruct (get_relevant_documents (message request)) as [docs|e] eqn:Hdocs;
    simpl; [|done].
  case_bool_decide; [by intros [= <- <-]|].
  pose proof (add_context_sources
                (PyList.slice_to MAX_CONTEXT_DOCS docs) [] []
                (NoDup_nil_2)) as Hfold.
  destruct (fold_left add_context _ _) as [srcs parts]. simpl in Hfold.
  destruct Hfold as (Hnd & Hlen & Hfrom).
  intros [= <- <-]. split; [done|]. split.
  - intros Hmax. pose proof (slice_to_bound MAX_CONTEXT_DOCS docs Hmax). lia.
  - intros s Hs. destruct (Hfrom s Hs) as [?%elem_of_nil|(d & Hd & ->)];
      [done|].
    exists get_relevant_documents, docs, d.
    repeat split; try done. by eapply slice_to_elem.
Qed.

(** X21. The context sources of a response are distinct, at most
    [MAX_CONTEXT_DOCS] of them (for a limit that is not negative), and each
    is the file name of the ["source"] of a retrieved document
    (["Unknown"] for a document without one). *)
Theorem chat_with_gemini_sources request st :
  let out :=
    chat_with_gemini MAX_CONTEXT_DOCS retriever server validation_error
                     request st in
  NoDup (context_sources_used out.1) /\
  (0 <= MAX_CONTEXT_DOCS ->
   (length (context_sources_used out.1) <= Z.to_nat MAX_CONTEXT_DOCS)%nat) /\
  forall s, s ∈ context_sources_used out.1 ->
    exists get_relevant_documents docs d,
      retriever = Some get_relevant_documents /\
      get_relevant_documents (message request) = Ok docs /\
      d ∈ docs /\
      s = PyStr.basename (default "Unknown" (metadata d !! "source")).
Proof.
  assert (Hempty : forall r : GeminiChatResponse * state,
            context_sources_used r.1 = [] ->
            NoDup (context_sources_used r.1) /\
            (0 <= MAX_CONTEXT_DOCS ->
             (length (context_sources_used r.1)
              <= Z.to_nat MAX_CONTEXT_DOCS)%nat) /\
            forall s, s ∈ context_sources_used r.1 ->
              exists get_relevant_documents docs d,
                retriever = Some get_relevant_documents /\
                get_relevant_documents (message request) = Ok docs /\
                d ∈ docs /\
                s = PyStr.basename
                      (default "Unknown" (metadata d !! "source"))).
  { intros r ->. split; [constructor|]. split; [simpl; lia|].
    by intros s ?%elem_of_nil. }
  unfold chat_with_gemini.
  destruct (Limiter.wait_if_needed _ _) as [[clock1 limiter1]|e];
    [|by apply Hempty].
  destruct (get_context _ _ _) as [[sources context_text]|e] eqn:Hctx;
    [|by apply Hempty].
  destruct (Gateway.result _) as [[| | | |text| |]|e];
    try (by apply Hempty).
  simpl. by eapply get_context_sources.
Qed.

(** X22. What the user of the chat endpoint gets, the limiter allowing at
    least one request and the context retrieval not raising.  If the
    first response is a 200 whose first part holds a string as its text,
    the response is that text with the context sources.  If every request
    meets HTTP 429, the response fails with the message "Rate limit
    exceeded. Please wait a moment and try again.".  If the first request
    meets HTTP 403, it fails with "Invalid API key or insufficient
    permissions".  If the first response is a 200 without candidate,
    without content or without parts, it fails with "Empty response from
    Gemini API". *)
Theorem chat_with_gemini_messages request st sources context_text :
  1 <= Limiter.max_requests (rate_limiter st) ->
  get_context MAX_CONTEXT_DOCS retriever request
  = Ok (sources, context_text) ->
  let api :=
    server (model request) (system_prompt context_text (message request)) in
  let answer :=
    (chat_with_gemini MAX_CONTEXT_DOCS retriever server validation_error
                      request st).1 in
  (forall data error_text t,
     api 0%nat = Gateway.Response 200 data error_text ->
     Gateway.first_text data = Some (Json.JStr t) ->
     answer = mkResponse t (model request) sources true None) /\
  ((forall n, exists data error_text,
      api n = Gateway.Response 429 data error_text) ->
   answer
   = mkResponse "" (model request) [] false
       (Some "Rate limit exceeded. Please wait a moment and try again.")) /\
  (forall data error_text,
     api 0%nat = Gateway.Response 403 data error_text ->
     answer
     = mkResponse "" (model request) [] false
         (Some "Invalid API key or insufficient permissions")) /\
  (forall data error_text,
     api 0%nat = Gateway.Response 200 data error_text ->
     Gateway.no_candidate data = true \/ Gateway.no_content data = true
     \/ Gateway.no_parts data = true ->
     answer
     = mkResponse "" (model request) [] false
         (Some "Empty response from Gemini API")).
Proof.
  intros Hmax Hctx api answer. subst answer.
  destruct (wait_if_needed_returns (clock st) (rate_limiter st) Hmax)
    as (clock1 & Hwait & _).
  pose proof (chat_after_context MAX_CONTEXT_DOCS retriever server
                validation_error _ _ _ _ _ _ Hwait Hctx _ eq_refl) as Hcall.
  cbv zeta in Hcall. fold api in Hcall.
  unfold Gateway.call_gemini_api_with_retry in Hcall.
  change (Z.to_nat 3) with 3%nat in Hcall. repeat split.
  - intros data error_text t Hresp Ht.
    apply extract_text in Ht.
    rewrite attempts_loop_S, Hresp, (iteration_success _ _ _ _ _ Ht)
      in Hcall.
    by destruct Hcall.
  - intros Hall.
    rewrite (attempts_loop_exhausted api 3 2
               (Exception "Rate limit exceeded - please try again later"))
      in Hcall; [by destruct Hcall| |done].
    intros n. destruct (Hall n) as (data & error_text & ->).
    destruct (Z.of_nat n <? 3 - 1) eqn:Hleft.
    + apply iteration_429. by apply Z.ltb_lt.
    + apply iteration_429_last. by apply Z.ltb_ge.
  - intros data error_text Hresp.
    rewrite attempts_loop_S, Hresp, iteration_403 in Hcall.
    by destruct Hcall.
  - intros data error_text Hresp Hempty.
    rewrite attempts_loop_S, Hresp, (iteration_empty _ _ _ _ Hempty)
      in Hcall.
    by destruct Hcall.
Qed.

End ChatContext.

Section IngestFurther.
Import Ingest.
Variable encode : string -> list nat.
Variables PyPDFLoader Docx2txtLoader : string -> res (list Document).
Variable split_documents : list Document -> list Document.
Context {Vec : Type}.
Variable embed_documents : list string -> res (list Vec).
Variable files_dir : string.

(** [create_or_update_vector_store] writes the collection it was asked
    for, or nothing. *)
Lemma create_or_update_writes docs store_name
    (st : gmap string (@collection Vec)) :
  let out :=
    create_or_update_vector_store encode embed_documents docs store_name st in
  out.2 = st \/ exists db, out.2 = <[store_name := mkCollection db None]> st.
Proof.
  unfold create_or_update_vector_store.
  destruct (st !! store_name) as [c|].
  - destruct (Chroma c) as [db|e]; simpl; [right; by eexists|by left].
  - destruct (100 <? Z.of_nat (length docs)).
    + destruct (Batcher.create_batches _ _ _) as [|first rest]; [by left|].
      destruct (add_documents embed_documents [] first) as [db|e];
        [|right; by eexists].
      destruct (add_batches embed_documents db rest) as [r db'].
      right. by eexists.
    + destruct (add_documents embed_documents [] docs) as [db|e];
        right; by eexists.
Qed.

(** X23. A run of [process_all_documents] changes nothing but the
    collection it was asked to fill: the document directory and every
    other collection are as before. *)
Theorem process_all_documents_frame store_name (w : @world Vec) :
  let run :=
    process_all_documents encode PyPDFLoader Docx2txtLoader split_documents
      embed_documents files_dir store_name w in
  listing (after run) = listing w /\
  (forall other, other <> store_name ->
                 stores (after run) !! other = stores w !! other).
Proof.
  unfold process_all_documents.
  case_bool_decide; [done|]. case_bool_decide.
  { destruct (stores w !! store_name) as [c|]; [destruct (Chroma c)|]; done. }
  case_bool_decide; [done|].
  pose proof (create_or_update_writes
                (load_all PyPDFLoader Docx2txtLoader split_documents
                   (filter (fun f => f ∉ get_existing_sources w store_name)
                           (get_supported_files files_dir w)))
                store_name (stores w)) as Hwrites.
  destruct (create_or_update_vector_store _ _ _ _ _) as [r st']. simpl in *.
  split; [done|]. intros other Hother.
  destruct Hwrites as [->|[db ->]]; [done|]. by rewrite lookup_insert_ne.
Qed.

(** X24. A run never removes or rewrites a record of an existing
    collection: what it leaves is the records that were there, followed by
    the records it added (none for a batch whose embedding failed). *)
Theorem process_all_documents_appends store_name (w : @world Vec) c :
  stores w !! store_name = Some c ->
  exists added,
    stores (after (process_all_documents encode PyPDFLoader Docx2txtLoader
                     split_documents embed_documents files_dir store_name w))
      !! store_name
    = Some (mkCollection (records c ++ added) (open_error c)).
Proof.
  intros Hc.
  assert (Hsame : stores w !! store_name
                  = Some (mkCollection (records c ++ []) (open_error c))).
  { rewrite app_nil_r, Hc. by destruct c. }
  unfold process_all_documents.
  case_bool_decide; [by exists []|]. case_bool_decide.
  { rewrite Hc. destruct (Chroma c); by exists []. }
  case_bool_decide; [by exists []|].
  unfold create_or_update_vector_store. rewrite Hc.
  destruct (Chroma c) as [db|e] eqn:Hopen; simpl; [|by exists []].
  unfold Chroma in Hopen. destruct (open_error c) eqn:Herr; [done|].
  injection Hopen as <-.
  destruct (add_batches_tolerant_extends embed_documents
              (Batcher.create_batches encode
                 (load_all PyPDFLoader Docx2txtLoader split_documents
                    (filter (fun f => f ∉ get_existing_sources w store_name)
                            (get_supported_files files_dir w))) 200000)
              (records c)) as (extra & -> & _).
  exists extra. by rewrite lookup_insert_eq.
Qed.

(** X25. [get_existing_sources] returns exactly the ["source"] values of
    the records of a collection that exists and opens; for a missing or
    unreadable collection it returns nothing. *)
Theorem get_existing_sources_spec store_name (w : @world Vec) f :
  f ∈ get_existing_sources w store_name <->
  exists c r,
    stores w !! store_name = Some c /\ open_error c = None /\
    r ∈ records c /\ metadata r.1 !! "source" = Some f.
Proof.
  unfold get_existing_sources, Chroma. split.
  - destruct (stores w !! store_name) as [c|]; [|by intros ?%not_elem_of_empty].
    destruct (open_error c) eqn:Hopen; [by intros ?%not_elem_of_empty|].
    intros (r & Hr & Hsrc)%elem_of_list_to_set%list_elem_of_omap.
    by exists c, r.
  - intros (c & r & -> & -> & Hr & Hsrc).
    apply elem_of_list_to_set, list_elem_of_omap. by exists r.
Qed.

(** X26. Every path that [get_supported_files] selects passes the
    extension test of [create_openai_embeddings]: for the files of a run
    the "Unsupported file type" error cannot occur, and the file goes to
    the Word or to the PDF loader. *)
Theorem supported_files_are_loadable (w : @world Vec) doc_path :
  doc_path ∈ get_supported_files files_dir w ->
  exists loader,
    (loader = Docx2txtLoader \/ loader = PyPDFLoader) /\
    Loader.create_openai_embeddings PyPDFLoader Docx2txtLoader
      split_documents doc_path
    = res_bind (loader doc_path)
               (fun documents => Ok (split_documents documents)).
Proof.
  unfold get_supported_files.
  destruct (listing w) as [names|]; [|by intros ?%elem_of_nil].
  intros Hin. apply list_elem_of_In, in_map_iff in Hin as (file & <- & Hfile).
  apply list_elem_of_In, list_elem_of_filter in Hfile as [Hext _].
  unfold Loader.create_openai_embeddings.
  destruct (PyStr.endswith ".docx" file) eqn:Hdocx.
  - rewrite (endswith_path_join _ _ _ Hdocx). exists Docx2txtLoader.
    split; [by left|done].
  - destruct (PyStr.endswith ".pdf" file) eqn:Hpdf; [|done].
    rewrite (endswith_path_join _ files_dir _ Hpdf).
    destruct (PyStr.endswith ".docx" (PyStr.path_join files_dir file)).
    + exists Docx2txtLoader. split; [by left|done].
    + exists PyPDFLoader. split; [by right|done].
Qed.

End IngestFurther.

Section IngestLossless.
Import Ingest.
Variable encode : string -> list nat.
Context {Vec : Type}.
Variable embed_documents : list string -> res (list Vec).

(** The embedding model answers every request, with one vector per
    text. *)
Hypothesis embedding_answers : forall texts,
  exists vectors,
    embed_documents texts = Ok vectors /\ length vectors = length texts.

Lemma add_documents_all db batch :
  exists db',
    add_documents embed_documents db batch = Ok db' /\
    db'.*1 = db.*1 ++ batch.
Proof.
  unfold add_documents.
  destruct (embedding_answers (map page_content batch))
    as (vectors & -> & Hlen).
  simpl. eexists. split; [reflexivity|].
  rewrite fmap_app, fst_zip; [done|].
  rewrite Hlen, length_map. done.
Qed.

Lemma add_batches_all batches db :
  exists db',
    add_batches embed_documents db batches = (Ok db', db') /\
    db'.*1 = db.*1 ++ concat batches.
Proof.
  revert db. induction batches as [|b batches IH]; intros db; simpl.
  - exists db. by rewrite app_nil_r.
  - destruct (add_documents_all db b) as (db1 & -> & Hdb1).
    destruct (IH db1) as (db2 & -> & Hdb2).
    exists db2. split; [done|]. by rewrite Hdb2, Hdb1, app_assoc.
Qed.

Lemma add_batches_tolerant_all batches db :
  (add_batches_tolerant embed_documents db batches).*1
  = db.*1 ++ concat batches.
Proof.
  revert db. induction batches as [|b batches IH]; intros db.
  - simpl. by rewrite app_nil_r.
  - rewrite add_batches_tolerant_cons.
    destruct (add_documents_all db b) as (db1 & -> & Hdb1).
    rewrite IH, Hdb1. simpl. by rewrite app_assoc.
Qed.

(** X27. When the embedding model answers every request,
    [create_or_update_vector_store] stores every chunk it is given exactly
    once and in order, whether the store is new or not and however the
    chunks are batched: the documents of the collection afterwards are
    the documents that were there followed by the chunks. *)
Theorem create_or_update_stores_all docs store_name
    (st : gmap string (@collection Vec)) :
  docs <> [] ->
  match st !! store_name with
  | Some c => open_error c = None
  | None => True
  end ->
  exists db,
    create_or_update_vector_store encode embed_documents docs store_name st
    = (Ok db, <[store_name := mkCollection db None]> st) /\
    db.*1 = match st !! store_name with
            | Some c => (records c).*1
            | None => []
            end ++ docs.
Proof.
  intros Hdocs Hopen. unfold create_or_update_vector_store.
  destruct (st !! store_name) as [c|].
  - unfold Chroma. rewrite Hopen. eexists. split; [reflexivity|].
    by rewrite add_batches_tolerant_all, create_batches_flatten.
  - destruct (100 <? Z.of_nat (length docs)).
    + pose proof (create_batches_flatten encode docs 200000) as Hflat.
      destruct (Batcher.create_batches encode docs 200000)
        as [|first rest]; [by simpl in Hflat|].
      destruct (add_documents_all [] first) as (db1 & -> & Hdb1).
      destruct (add_batches_all rest db1) as (db2 & -> & Hdb2).
      exists db2. split; [done|].
      rewrite Hdb2, Hdb1. simpl. by rewrite <- Hflat.
    + destruct (add_documents_all [] docs) as (db1 & -> & Hdb1).
      exists db1. split; [done|]. by rewrite Hdb1.
Qed.

End IngestLossless.

Section UploadFurther.
Import Upload.
Variable MAX_FILE_SIZE : Z.
Context {V : Type}.
Variable process_document : string -> string -> list Document.
Variable split_documents : list Document -> list Document.
Variable build_vectordb : list Document -> string -> V -> res unit * V.
Variable open_error : string -> @server V -> option exn.

(** The loop never writes to the audit log. *)
Lemma handle_files_audit category target_dir files (st : @server V * locals) :
  audit_logs
    (handle_files MAX_FILE_SIZE process_document split_documents
       build_vectordb open_error category target_dir files st).2.1
  = audit_logs st.1.
Proof.
  revert st. induction files as [|file files IH]; intros st; [done|].
  simpl.
  destruct (handle_file _ _ _ _ _ _ _ _ _) as [[e|] st'] eqn:Hfile;
    [simpl|rewrite IH];
    unfold handle_file in Hfile; destruct st as [srv loc];
    repeat case_match; simplify_eq; done.
Qed.

(** X28. Every request to the upload endpoint with a valid category
    leaves exactly one audit entry: [document_upload_enhanced] when it
    answers, [document_upload_failed] when it fails.  A request with
    another category is answered with HTTP 400 and leaves no trace. *)
Theorem upload_audit_entry category files (srv : @server V) :
  let out :=
    upload_corporate_documents MAX_FILE_SIZE process_document
      split_documents build_vectordb open_error category files srv in
  (category ∈ ["rag"; "cag"; "mapping"] ->
   audit_logs out.2
   = audit_logs srv
     ++ [match out.1 with
         | inl _ => ("document_upload_enhanced", true)
         | inr _ => ("document_upload_failed", false)
         end]) /\
  (category ∉ ["rag"; "cag"; "mapping"] ->
   out = (inr (HTTPException 400 InvalidCategory), srv)).
Proof.
  unfold upload_corporate_documents. split; intros Hcat.
  - rewrite bool_decide_eq_true_2 by done. simpl negb. cbv iota.
    pose proof (handle_files_audit category (category +:+ "_docs") files
                  (srv, mkLocals [] 0)) as Haudit.
    destruct (handle_files _ _ _ _ _ _ _ _ _) as [[e|] [srv' loc]];
      simpl in *; by rewrite Haudit.
  - by rewrite bool_decide_eq_false_2.
Qed.

(** The loop leaves the vector stores alone for a category that is not
    indexed. *)
Lemma handle_files_no_index category target_dir files
    (st : @server V * locals) :
  category ∉ ["rag"; "cag"] ->
  vectordb
    (handle_files MAX_FILE_SIZE process_document split_documents
       build_vectordb open_error category target_dir files st).2.1
  = vectordb st.1.
Proof.
  intros Hcat. revert st.
  induction files as [|file files IH]; intros st; [done|].
  simpl.
  destruct (handle_file _ _ _ _ _ _ _ _ _) as [[e|] st'] eqn:Hfile;
    [simpl|rewrite IH];
    unfold handle_file in Hfile; destruct st as [srv loc];
    rewrite (bool_decide_eq_false_2 _ Hcat) in Hfile;
    repeat case_match; simplify_eq; done.
Qed.

Lemma handle_files_no_chunks category target_dir files
    (st : @server V * locals) :
  category ∉ ["rag"; "cag"] ->
  total_chunks st.2 = 0 ->
  Forall (fun entry => p_chunks entry = 0) (processed_files st.2) ->
  let out :=
    handle_files MAX_FILE_SIZE process_document split_documents
      build_vectordb open_error category target_dir files st in
  total_chunks out.2.2 = 0 /\
  Forall (fun entry => p_chunks entry = 0) (processed_files out.2.2).
Proof.
  intros Hcat. revert st.
  induction files as [|file files IH]; intros st Htotal Hall; [done|].
  simpl.
  destruct (handle_file _ _ _ _ _ _ _ _ _) as [[e|] st'] eqn:Hfile;
    [simpl|apply IH];
    unfold handle_file in Hfile; destruct st as [srv loc];
    rewrite (bool_decide_eq_false_2 _ Hcat) in Hfile;
    repeat case_match; simplify_eq; simpl in *; try done; try lia.
  apply Forall_app. split; [done|]. by repeat constructor.
Qed.

(** X29. Uploads to the category ["mapping"] are saved but never indexed:
    the vector stores are not touched and every processed file reports no
    chunks. *)
Theorem upload_mapping_not_indexed files (srv : @server V) :
  let out :=
    upload_corporate_documents MAX_FILE_SIZE process_document
      split_documents build_vectordb open_error "mapping" files srv in
  vectordb out.2 = vectordb srv /\
  forall loc, out.1 = inl loc ->
    total_chunks loc = 0 /\
    Forall (fun entry => p_chunks entry = 0) (processed_files loc).
Proof.
  assert (Hcat : "mapping" ∉ ["rag"; "cag"]).
  { rewrite !not_elem_of_cons. repeat split; try done.
    apply not_elem_of_nil. }
  unfold upload_corporate_documents.
  rewrite bool_decide_eq_true_2 by (do 2 right; left).
  simpl negb. cbv iota.
  pose proof (handle_files_no_index "mapping" ("mapping" +:+ "_docs") files
                (srv, mkLocals [] 0) Hcat) as Hdb.
  pose proof (handle_files_no_chunks "mapping" ("mapping" +:+ "_docs") files
                (srv, mkLocals [] 0) Hcat eq_refl (Forall_nil_2 _)) as Hchunks.
  destruct (handle_files _ _ _ _ _ _ _ _ _) as [[e|] [srv' loc]];
    simpl in *; (split; [done|]); intros loc' [= <-]. done.
Qed.

Lemma sum_chunks_snoc (entries : list processed) entry :
  foldr Z.add 0 (p_chunks <$> entries ++ [entry])
  = foldr Z.add 0 (p_chunks <$> entries) + p_chunks entry.
Proof.
  rewrite fmap_app. simpl.
  induction (p_chunks <$> entries); simpl; lia.
Qed.

(** One iteration that raises nothing: the file is small enough and has
    a name; it is skipped, or it is written and entered in the list. *)
Lemma handle_file_passes category target_dir file srv loc srv' loc' :
  handle_file MAX_FILE_SIZE process_document split_documents build_vectordb
              open_error category target_dir file (srv, loc)
  = (None, (srv', loc')) ->
  too_large MAX_FILE_SIZE file = false /\
  exists name,
    filename file = Some name /\
    match accepted [file] with
    | [] => srv' = srv /\ loc' = loc
    | _ =>
        open_error (PyStr.path_join target_dir name) srv = None /\
        saved srv'
        = saved srv ++ [(PyStr.path_join target_dir name, content file)] /\
        exists chunks_count,
          processed_files loc'
          = processed_files loc
            ++ [mkProcessed name (Z.of_nat (String.length (content file)))
                            chunks_count
                            (PyStr.lower (PyStr.suffix name))] /\
          total_chunks loc' = total_chunks loc + chunks_count
    end.
Proof.
  unfold handle_file, accepted. simpl.
  destruct (too_large MAX_FILE_SIZE file); [done|].
  destruct (filename file) as [name|]; [|done].
  intros Hfile. split; [done|]. exists name. split; [done|].
  case_bool_decide as Hext; simpl in *.
  2: { by injection Hfile as <- <-. }
  destruct (open_error _ srv) as [e|]; [done|]. split; [done|].
  repeat case_match; simplify_eq; simpl; (split; [done|]); by eexists.
Qed.

Lemma accepted_cons file files :
  accepted (file :: files) = accepted [file] ++ accepted files.
Proof.
  unfold accepted. simpl. destruct (filename file) as [name|]; [|done].
  by case_bool_decide.
Qed.

(** What a loop that raised nothing has done. *)
Lemma handle_files_passes category target_dir files srv loc srv' loc' :
  handle_files MAX_FILE_SIZE process_document split_documents
    build_vectordb open_error category target_dir files (srv, loc)
  = (None, (srv', loc')) ->
  Forall (fun file => too_large MAX_FILE_SIZE file = false /\
                      filename file <> None) files /\
  p_filename <$> processed_files loc'
  = (p_filename <$> processed_files loc) ++ (accepted files).*1 /\
  saved srv'
  = saved srv
    ++ ((fun entry => (PyStr.path_join target_dir entry.1, entry.2))
        <$> accepted files) /\
  total_chunks loc' - foldr Z.add 0 (p_chunks <$> processed_files loc')
  = total_chunks loc - foldr Z.add 0 (p_chunks <$> processed_files loc).
Proof.
  revert srv loc.
  induction files as [|file files IH]; intros srv loc.
  - simpl. intros [= <- <-]. split; [constructor|].
    by rewrite !app_nil_r.
  - cbn [handle_files].
    destruct (handle_file _ _ _ _ _ _ _ _ _) as [[e|] [srv1 loc1]] eqn:Hfile;
      [done|].
    intros Hrest. apply IH in Hrest as (Hall & Hnames & Hsaved & Htotal).
    apply handle_file_passes in Hfile as (Hsmall & name & Hname & Hfile).
    split; [constructor; [by rewrite Hname|done]|].
    rewrite accepted_cons, Hnames, Hsaved, Htotal.
    unfold accepted in *. simpl in *. rewrite Hname in *.
    case_bool_decide as Hext; simpl in *.
    + destruct Hfile as (_ & -> & chunks_count & -> & ->).
      rewrite sum_chunks_snoc, fmap_app, <- !app_assoc. simpl.
      repeat split; try done. lia.
    + by destruct Hfile as [-> ->].
Qed.

(** X30. A request that is answered with success had a valid category, no
    file over the size limit and no file without a name; its processed
    files are exactly the uploads whose extension is allowed, in the
    order they came, each written under the category's directory (and
    nothing else was written); [total_chunks] is the sum of their chunk
    counts. *)
Theorem upload_accepts_allowed category files (srv : @server V) loc srv' :
  upload_corporate_documents MAX_FILE_SIZE process_document
    split_documents build_vectordb open_error category files srv
  = (inl loc, srv') ->
  category ∈ ["rag"; "cag"; "mapping"] /\
  Forall (fun file => too_large MAX_FILE_SIZE file = false /\
                      filename file <> None) files /\
  p_filename <$> processed_files loc = (accepted files).*1 /\
  saved srv'
  = saved srv
    ++ ((fun entry =>
           (PyStr.path_join (category +:+ "_docs") entry.1, entry.2))
        <$> accepted files) /\
  total_chunks loc = foldr Z.add 0 (p_chunks <$> processed_files loc).
Proof.
  unfold upload_corporate_documents.
  case_bool_decide as Hcat; simpl negb; cbv iota; [|done].
  destruct (handle_files _ _ _ _ _ _ _ _ _) as [[e|] [srv1 loc1]] eqn:Hloop;
    [done|].
  intros [= <- <-].
  apply handle_files_passes in Hloop as (Hall & Hnames & Hsaved & Htotal).
  simpl in *. repeat split; try done. lia.
Qed.

End UploadFurther.

(* ===================================================================== *)
(** * Part V: the further properties at concrete inputs                   *)
(* ===================================================================== *)

(** X1 at chunks of 3, 4, 5 and 2 tokens under a limit of 8. *)
Lemma create_batches_greedy_witness :
  8 < Batcher.batch_tokens Batcher.char_tokens
        [Batcher.chunk 3; Batcher.chunk 4]
      + Batcher.count_tokens Batcher.char_tokens
          (page_content (Batcher.chunk 5)).
Proof.
  apply (create_batches_greedy Batcher.char_tokens
           [Batcher.chunk 3; Batcher.chunk 4; Batcher.chunk 5;
            Batcher.chunk 2] 8
           [] [Batcher.chunk 3; Batcher.chunk 4] (Batcher.chunk 5)
           [Batcher.chunk 2] []).
  vm_compute. reflexivity.
Defined.

(** X2 at chunks of 3 and 4 tokens under a limit of 8. *)
Lemma create_batches_single_witness :
  Batcher.create_batches Batcher.char_tokens
    [Batcher.chunk 3; Batcher.chunk 4] 8
  = [[Batcher.chunk 3; Batcher.chunk 4]].
Proof.
  apply (create_batches_single Batcher.char_tokens
           [Batcher.chunk 3; Batcher.chunk 4] 8).
  - discriminate.
  - vm_compute. discriminate.
Defined.

(** X4 at a limiter of one request per minute that recorded a request at
    time 0 and is called at time 59. *)
Lemma wait_if_needed_full_window_witness :
  Limiter.wait_if_needed 59 (Limiter.mkLimiter 1 60 [0])
  = Ok (0 + 60 + 1, Limiter.mkLimiter 1 60 (0 :: [] ++ [59])).
Proof.
  apply (wait_if_needed_full_window 59 (Limiter.mkLimiter 1 60 [0]) 0 []).
  - reflexivity.
  - simpl. lia.
Defined.

(** X5 at the default limiter and at a limiter that allows nothing. *)
Lemma wait_if_needed_raises_witness :
  (exists clock',
     Limiter.wait_if_needed 0 Limiter.default
     = Ok (clock', Limiter.mkLimiter 14 60 ([] ++ [0])) /\ 0 <= clock') /\
  Limiter.wait_if_needed 0 (Limiter.mkLimiter 0 60 [])
  = Raise (IndexError "list index out of range").
Proof.
  split.
  - apply (proj1 (wait_if_needed_raises 0 Limiter.default)). simpl. lia.
  - apply (proj2 (wait_if_needed_raises 0 (Limiter.mkLimiter 0 60 []))).
    + simpl. lia.
    + reflexivity.
Defined.

(** X6 at fifteen back-to-back calls of the default limiter. *)
Lemma calls_record_at_most_one_extra_witness :
  exists sent self',
    Limiter.calls (replicate 15 0) 0 (Limiter.mkLimiter 14 60 [])
    = Ok (sent, self') /\
    length sent = length (replicate 15 0) /\
    Limiter.max_requests self' = 14 /\
    Z.of_nat (length (Limiter.requests self')) <= 14 + 1.
Proof.
  apply (calls_record_at_most_one_extra 14 60 (replicate 15 0) 0).
  - lia.
  - apply Forall_forall. intros gap Hgap.
    apply elem_of_replicate in Hgap as [-> _]. lia.
Defined.

(** A 200 whose first part holds [null] as its text ends the call at
    once, and the call returns [None]. *)
Example call_returns_null_text :
  Gateway.call_gemini_api_with_retry
    (Gateway.server_200 (Gateway.body_with Json.JNull)) 3
  = Gateway.mkTrace (Ok Json.JNull) 1 [].
Proof. vm_compute. reflexivity. Qed.

(** X7 at that server and the default of three attempts. *)
Lemma call_attempts_bounded_witness :
  let server := Gateway.server_200 (Gateway.body_with Json.JNull) in
  let call := Gateway.call_gemini_api_with_retry server 3 in
  (1 <= Gateway.attempts call)%nat /\
  Z.of_nat (Gateway.attempts call) <= 3 /\
  S (length (Gateway.sleeps call)) = Gateway.attempts call /\
  forall v, Gateway.result call = Ok v ->
    exists data error_text,
      server (pred (Gateway.attempts call))
      = Gateway.Response 200 data error_text /\
      Gateway.first_text data = Some v.
Proof.
  apply (proj1 (call_attempts_bounded
                  (Gateway.server_200 (Gateway.body_with Json.JNull)) 3)).
  lia.
Defined.

(** X8 at the default of three attempts. *)
Lemma call_rate_limited_throughout_witness :
  Gateway.call_gemini_api_with_retry Gateway.server_always_429 3
  = Gateway.mkTrace
      (Raise (Exception "Rate limit exceeded - please try again later"))
      (Z.to_nat 3)
      (map (fun i => 2 ^ Z.of_nat i * 2) (seq 0 (Z.to_nat 3 - 1))).
Proof.
  apply (call_rate_limited_throughout Gateway.server_always_429 3).
  - lia.
  - intros n. eexists _, _. reflexivity.
Defined.

(** X9 at the default of three attempts. *)
Lemma call_timed_out_throughout_witness :
  Gateway.call_gemini_api_with_retry Gateway.server_always_timeout 3
  = Gateway.mkTrace (Raise (Exception "Request timeout - please try again"))
      (Z.to_nat 3)
      (map (fun i => 2 ^ Z.of_nat i * 1) (seq 0 (Z.to_nat 3 - 1))).
Proof.
  apply (call_timed_out_throughout Gateway.server_always_timeout 3).
  - lia.
  - reflexivity.
Defined.

(** X10 at a 500 whose body says "Rate Limit hit", on the first of three
    attempts. *)
Lemma error_body_rate_limit_witness :
  Gateway.iteration 3 0
    (Gateway.Response 500 Gateway.body_without_candidates "Rate Limit hit")
  = Gateway.Continue (2 ^ 0 * 2).
Proof.
  apply (proj1 (error_body_rate_limit 3 0 500
                  Gateway.body_without_candidates "Rate Limit hit"
                  ltac:(discriminate) ltac:(discriminate)
                  ltac:(discriminate) eq_refl)).
  lia.
Defined.

(** X11 at the default of three attempts. *)
Lemma call_backoff_bounded_witness :
  foldr Z.add 0
    (Gateway.sleeps
       (Gateway.call_gemini_api_with_retry Gateway.server_always_429 3))
  <= 2 ^ 3 - 2.
Proof.
  apply (call_backoff_bounded Gateway.server_always_429 3). lia.
Defined.

(** X12 at the directory that could not be loaded. *)
Lemma build_then_get_retriever_witness :
  let fs' :=
    Store.disk (Store.build_vectordb None Store.example_from_documents
                  Store.example_add_documents Store.always_saved
                  Store.unreadable_disk [Store.new_chunk] "rag_docs") in
  Store.get_retriever None fs' "rag_docs"
  = Ok (Some [(Store.new_chunk, 5%nat)]) /\
  (forall other, other <> "rag_docs" ->
                 Store.get_retriever None fs' other
                 = Store.get_retriever None Store.unreadable_disk other).
Proof.
  apply (build_then_get_retriever None Store.example_from_documents
           Store.example_add_documents Store.always_saved
           Store.unreadable_disk [Store.new_chunk] "rag_docs"
           [(Store.new_chunk, 5%nat)]).
  vm_compute. reflexivity.
Defined.

(** X13 at a disk with both stores. *)
Lemma combined_retriever_results_witness :
  exists r,
    Store.get_combined_retriever None Store.both_stores = Some r /\
    Store.get_relevant_documents Store.search_all r "Frage"
    = match Store.search_all [(Store.old_chunk, 3%nat)] "Frage",
            Store.search_all [(Store.new_chunk, 5%nat)] "Frage" with
      | Ok rag_docs, Ok cag_docs => Ok (rag_docs ++ cag_docs)
      | _, _ => Ok []
      end.
Proof.
  apply (proj1 (combined_retriever_results None Store.search_all
                  Store.both_stores [(Store.old_chunk, 3%nat)] "Frage"
                  ltac:(vm_compute; reflexivity))
               [(Store.new_chunk, 5%nat)]).
  vm_compute. reflexivity.
Defined.

(** X15 at a log of three events and a limit of two. *)
Lemma get_audit_logs_window_witness :
  Audit.logs (Audit.get_audit_logs 2 false Audit.three_logs)
  = inl (drop (length Audit.three_logs - Z.to_nat 2) Audit.three_logs).
Proof.
  apply (proj1 (proj2 (get_audit_logs_window 2 Audit.three_logs))). lia.
Defined.

(** X17 at a model the server has. *)
Lemma get_llm_for_model_cached_witness :
  let st' :=
    LlmCache.mkState {[ "llama3" := "llama3" ]}
                     [("llm_initialization", true)] in
  LlmCache.llm_cache st' !! "llama3" = Some "llama3" /\
  LlmCache.get_llm_for_model "llama3" LlmCache.only_llama3 "llama3" st'
  = (inl "llama3", st') /\
  (forall other, other <> "llama3" ->
                 LlmCache.llm_cache st' !! other
                 = LlmCache.llm_cache (LlmCache.mkState ∅ []) !! other).
Proof.
  apply (get_llm_for_model_cached "llama3" LlmCache.only_llama3 "llama3"
           (LlmCache.mkState ∅ [])).
  reflexivity.
Defined.

(** X18 at a model the server does not have. *)
Lemma get_llm_for_model_fallback_witness :
  let out :=
    LlmCache.get_llm_for_model "llama3" LlmCache.only_llama3 "mistral"
      (LlmCache.mkState ∅ []) in
  out.1 = inl "llama3" /\
  LlmCache.llm_cache out.2 = <["mistral" := "llama3"]> ∅.
Proof.
  pose proof (get_llm_for_model_fallback "llama3" LlmCache.only_llama3
                "mistral" (LlmCache.mkState ∅ [])
                (Exception "model not found") eq_refl eq_refl)
    as (_ & _ & Hfallback).
  apply Hfallback. discriminate.
Defined.


(** X20 at a request to a fresh default limiter. *)
Lemma chat_with_gemini_charges_limiter_witness :
  Limiter.requests
    (Chat.rate_limiter
       (Chat.chat_with_gemini 6 None (fun _ _ => Gateway.server_403)
          Chat.not_a_string Chat.plain_request Chat.fresh_state).2)
  = [] ++ [100].
Proof.
  apply (chat_with_gemini_charges_limiter 6 None
           (fun _ _ => Gateway.server_403) Chat.not_a_string
           Chat.plain_request Chat.fresh_state).
  simpl. lia.
Defined.

(** X22 at a server that answers with a text, at one that always answers
    429, at one that answers 403, and at one that answers 200 with a
    candidate that has no content. *)
Lemma chat_with_gemini_messages_witness :
  let answer server :=
    (Chat.chat_with_gemini 6 None (fun _ _ => server) Chat.not_a_string
       Chat.plain_request Chat.fresh_state).1 in
  answer (Gateway.server_200 (Gateway.body_with_text "Antwort"))
  = Chat.mkResponse "Antwort" "gemini-pro" [] true None /\
  answer Gateway.server_always_429
  = Chat.mkResponse "" "gemini-pro" [] false
      (Some "Rate limit exceeded. Please wait a moment and try again.") /\
  answer Gateway.server_403
  = Chat.mkResponse "" "gemini-pro" [] false
      (Some "Invalid API key or insufficient permissions") /\
  answer (Gateway.server_200 Gateway.body_without_content)
  = Chat.mkResponse "" "gemini-pro" [] false
      (Some "Empty response from Gemini API").
Proof.
  intros answer. subst answer. cbv beta. split; [|split; [|split]].
  - pose proof (chat_with_gemini_messages 6 None
                  (fun _ _ =>
                     Gateway.server_200 (Gateway.body_with_text "Antwort"))
                  Chat.not_a_string Chat.plain_request Chat.fresh_state []
                  "" ltac:(simpl; lia) eq_refl) as (Htext & _).
    apply (Htext (Gateway.body_with_text "Antwort") "" "Antwort");
      reflexivity.
  - pose proof (chat_with_gemini_messages 6 None
                  (fun _ _ => Gateway.server_always_429) Chat.not_a_string
                  Chat.plain_request Chat.fresh_state [] ""
                  ltac:(simpl; lia) eq_refl) as (_ & Hlimited & _).
    apply Hlimited. intros n. eexists _, _. reflexivity.
  - pose proof (chat_with_gemini_messages 6 None
                  (fun _ _ => Gateway.server_403) Chat.not_a_string
                  Chat.plain_request Chat.fresh_state [] ""
                  ltac:(simpl; lia) eq_refl) as (_ & _ & Hforbidden & _).
    apply (Hforbidden Gateway.body_without_candidates "forbidden").
    reflexivity.
  - pose proof (chat_with_gemini_messages 6 None
                  (fun _ _ =>
                     Gateway.server_200 Gateway.body_without_content)
                  Chat.not_a_string Chat.plain_request Chat.fresh_state []
                  "" ltac:(simpl; lia) eq_refl) as (_ & _ & _ & Hempty).
    apply (Hempty Gateway.body_without_content "").
    + reflexivity.
    + right. left. reflexivity.
Defined.

(** X24 at the collection left by a first run over two files. *)
Lemma process_all_documents_appends_witness :
  let ingest :=
    Ingest.process_all_documents Batcher.char_tokens Loader.echo_loader
      Loader.echo_loader (fun documents => documents)
      Store.length_embedding "docs" "chroma_db" in
  let first := Ingest.after (ingest Ingest.two_files) in
  exists c added,
    Ingest.stores first !! "chroma_db" = Some c /\
    Ingest.stores (Ingest.after (ingest first)) !! "chroma_db"
    = Some (Ingest.mkCollection (Ingest.records c ++ added)
                                (Ingest.open_error c)).
Proof.
  intros ingest first.
  destruct (Ingest.stores first !! "chroma_db") as [c|] eqn:Hc;
    [|vm_compute in Hc; discriminate Hc].
  destruct (process_all_documents_appends Batcher.char_tokens
              Loader.echo_loader Loader.echo_loader
              (fun documents => documents) Store.length_embedding "docs"
              "chroma_db" first c Hc) as (added & Hadded).
  by exists c, added.
Defined.

(** X26 at a directory with [a.pdf], [b.docx] and [notes.txt]. *)
Lemma supported_files_are_loadable_witness :
  exists loader,
    (loader = Loader.failing_loader \/ loader = Loader.echo_loader) /\
    Loader.create_openai_embeddings Loader.echo_loader Loader.failing_loader
      (fun documents => documents) "docs/a.pdf"
    = res_bind (loader "docs/a.pdf") (fun documents => Ok documents).
Proof.
  apply (supported_files_are_loadable Loader.echo_loader
           Loader.failing_loader (fun documents => documents) "docs"
           Ingest.two_files "docs/a.pdf").
  vm_compute. left.
Defined.

(** The example embedding answers every request. *)
Lemma length_embedding_answers texts :
  exists vectors,
    Store.length_embedding texts = Ok vectors /\
    length vectors = length texts.
Proof. eexists. split; [reflexivity|]. apply length_map. Qed.

(** X27 at a new store and one chunk. *)
Lemma create_or_update_stores_all_witness :
  exists db,
    Ingest.create_or_update_vector_store Batcher.char_tokens
      Store.length_embedding [Store.new_chunk] "chroma_db" ∅
    = (Ok db, <["chroma_db" := Ingest.mkCollection db None]> ∅) /\
    db.*1 = [] ++ [Store.new_chunk].
Proof.
  pose proof (create_or_update_stores_all Batcher.char_tokens
                Store.length_embedding length_embedding_answers
                [Store.new_chunk] "chroma_db" ∅) as Hall.
  rewrite lookup_empty in Hall. apply Hall.
  - discriminate.
  - exact I.
Defined.

(** X30 at three small uploads, the second with an extension that is not
    allowed. *)
Lemma upload_accepts_allowed_witness :
  let files :=
    [Upload.mkUpload (Some "a.pdf") (Some 5) "hello";
     Upload.mkUpload (Some "tool.exe") (Some 4) "MZ..";
     Upload.mkUpload (Some "c.txt") None "abc"] in
  let loc :=
    Upload.mkLocals [Upload.mkProcessed "a.pdf" 5 1 ".pdf";
                     Upload.mkProcessed "c.txt" 3 1 ".txt"] 2 in
  let srv' :=
    Upload.mkServer [("rag_docs/a.pdf", "hello"); ("rag_docs/c.txt", "abc")]
                    [("rag_docs", 1%nat); ("rag_docs", 1%nat)]
                    [("document_upload_enhanced", true)] in
  "rag" ∈ ["rag"; "cag"; "mapping"] /\
  Forall (fun file => Upload.too_large 10485760 file = false /\
                      Upload.filename file <> None) files /\
  Upload.p_filename <$> Upload.processed_files loc
  = (Upload.accepted files).*1 /\
  Upload.saved srv'
  = Upload.saved Upload.empty_server
    ++ ((fun entry =>
           (PyStr.path_join ("rag" +:+ "_docs") entry.1, entry.2))
        <$> Upload.accepted files) /\
  Upload.total_chunks loc
  = foldr Z.add 0 (Upload.p_chunks <$> Upload.processed_files loc).
Proof.
  intros files loc srv'.
  apply (upload_accepts_allowed 10485760 Upload.one_document
           (fun docs => docs) Upload.count_chunks Upload.flat_directory
           "rag" files Upload.empty_server loc srv').
  vm_compute. reflexivity.
Defined.

(** A file name with a directory part that does not exist: the file
    cannot be written, and the request ends with HTTP 500 although the
    file is small and its extension allowed. *)
Example upload_into_missing_directory :
  Upload.upload_corporate_documents 10485760 Upload.one_document
    (fun docs => docs) Upload.count_chunks Upload.flat_directory "rag"
    [Upload.mkUpload (Some "sub/a.pdf") (Some 5) "hello"]
    Upload.empty_server
  = (inr (Upload.HTTPException 500
            (Upload.ProcessingError
               (Upload.Other
                  (OSError "[Errno 2] No such file or directory: 'rag_docs/sub/a.pdf'")))),
     Upload.mkServer [] [] [("document_upload_failed", false)]).
Proof. vm_compute. reflexivity. Qed.
